(** * NYC property-sales utilities: the fetcher and the normalizer

    A shallow embedding of [scripts/download_data.py] and
    [scripts/process_sales_data.py].

    - [Py]: the Python string and path built-ins the two scripts call.
    - [DownloadData]: the fetcher's loop over years and boroughs.
    - [ProcessSalesData]: header location, column canonicalisation, the
      per-file pipeline and the aggregator; the definitions, then the facts
      for any behaviour of the library, then runs on concrete sheets. *)

From Stdlib Require Import String Ascii List Bool Arith ZArith Lia.
From Stdlib Require Import DecimalString DecimalZ DecimalPos DecimalFacts.
Import ListNotations.

Open Scope string_scope.
Open Scope list_scope.

(* ===================================================================== *)
(** * Python built-ins on text *)
(* ===================================================================== *)

Module Py.

(** Text is modelled as ASCII: a [string] of one-byte characters.  The
    characters for which [str.isspace] holds (and which [\s] matches) in the
    ASCII range are TAB, LF, VT, FF, CR, the four separators 0x1c-0x1f, and
    the space. *)
Definition isspace (c : ascii) : bool :=
  let n := nat_of_ascii c in
  ((9 <=? n)%nat && (n <=? 13)%nat) || ((28 <=? n)%nat && (n <=? 32)%nat).

Definition isupper (c : ascii) : bool :=
  let n := nat_of_ascii c in (65 <=? n)%nat && (n <=? 90)%nat.

Definition islower (c : ascii) : bool :=
  let n := nat_of_ascii c in (97 <=? n)%nat && (n <=? 122)%nat.

Definition lower_char (c : ascii) : ascii :=
  if isupper c then ascii_of_nat (nat_of_ascii c + 32) else c.

Definition upper_char (c : ascii) : ascii :=
  if islower c then ascii_of_nat (nat_of_ascii c - 32) else c.

(** [map_str f s]: [s] with [f] applied to every character. *)
Fixpoint map_str (f : ascii -> ascii) (s : string) : string :=
  match s with
  | EmptyString => EmptyString
  | String c s' => String (f c) (map_str f s')
  end.

(** [s.lower()] and [s.upper()]. *)
Definition lower (s : string) : string := map_str lower_char s.
Definition upper (s : string) : string := map_str upper_char s.

(** [s.lstrip()], [s.rstrip()], [s.strip()]. *)
Fixpoint lstrip (s : string) : string :=
  match s with
  | EmptyString => EmptyString
  | String c s' => if isspace c then lstrip s' else s
  end.

Fixpoint rstrip (s : string) : string :=
  match s with
  | EmptyString => EmptyString
  | String c s' =>
      match rstrip s' with
      | EmptyString => if isspace c then EmptyString else String c EmptyString
      | r => String c r
      end
  end.

Definition strip (s : string) : string := rstrip (lstrip s).

(** [re.sub(r'\s+', ' ', s)]: every maximal run of whitespace is replaced by
    one space.  [in_run] tells that the previous character was whitespace, so
    the run's single space is already out. *)
Fixpoint sub_ws_runs (in_run : bool) (s : string) : string :=
  match s with
  | EmptyString => EmptyString
  | String c s' =>
      if isspace c
      then (if in_run then sub_ws_runs true s'
            else String " " (sub_ws_runs true s'))
      else String c (sub_ws_runs false s')
  end.

Definition re_sub_ws (s : string) : string := sub_ws_runs false s.

(** [s.replace(old, new)] for one-character [old] and [new]. *)
Definition replace (old new : ascii) (s : string) : string :=
  map_str (fun c => if Ascii.eqb c old then new else c) s.

(** [s.startswith(p)] and [s.endswith(p)]. *)
Definition startswith (s p : string) : bool := String.prefix p s.

Definition endswith (s p : string) : bool :=
  (String.length p <=? String.length s)%nat
  && String.eqb (substring (String.length s - String.length p)
                           (String.length p) s) p.

(** [str(n)] for an [int]. *)
Definition str_int (n : Z) : string := NilEmpty.string_of_int (Z.to_int n).

(** [os.path.join(a, b)] on a POSIX system. *)
Definition path_join (a b : string) : string :=
  if startswith b "/" then b
  else if String.eqb a "" || endswith a "/" then (a ++ b)%string
  else (a ++ "/" ++ b)%string.

(** [os.path.basename(p)]: what follows the last slash. *)
Fixpoint basename (p : string) : string :=
  match p with
  | EmptyString => EmptyString
  | String c p' =>
      if Ascii.eqb c "/" then basename p'
      else if existsb (Ascii.eqb "/") (list_ascii_of_string p') then basename p'
      else p
  end.

(** [s.split()]: the words of [s], the maximal runs of characters that are
    not whitespace. *)
Definition starts_word (s : string) : bool :=
  match s with
  | String c _ => negb (isspace c)
  | EmptyString => false
  end.

Fixpoint split (s : string) : list string :=
  match s with
  | EmptyString => []
  | String c s' =>
      if isspace c then split s'
      else if starts_word s' then
        match split s' with
        | w :: ws => String c w :: ws
        | [] => [String c EmptyString]
        end
      else String c EmptyString :: split s'
  end.

(** [' '.join(ws)] *)
Fixpoint join_space (ws : list string) : string :=
  match ws with
  | [] => EmptyString
  | [w] => w
  | w :: ws' => (w ++ " " ++ join_space ws')%string
  end.

(** ** Facts about text *)

Lemma lstrip_sub_ws_runs (s : string) :
  lstrip (sub_ws_runs false s) = sub_ws_runs true s.
Proof.
  assert (H : forall t, lstrip (sub_ws_runs true t) = sub_ws_runs true t).
  { induction t as [| c t IH]; [reflexivity |].
    cbn [sub_ws_runs]. destruct (isspace c) eqn:E; [exact IH |].
    cbn [lstrip]. now rewrite E. }
  destruct s as [| c s]; [reflexivity |].
  cbn [sub_ws_runs]. destruct (isspace c) eqn:E.
  - cbn [lstrip]. change (isspace " ") with true. cbn iota. apply H.
  - cbn [lstrip]. now rewrite E.
Qed.

Lemma rstrip_nonspace (c : ascii) (s : string) :
  isspace c = false -> rstrip (String c s) = String c (rstrip s).
Proof.
  intros E. cbn [rstrip]. destruct (rstrip s); [now rewrite E | reflexivity].
Qed.

Lemma split_words_nonempty (s : string) : Forall (fun w => w <> EmptyString) (split s).
Proof.
  induction s as [| c s IH]; [constructor |].
  cbn [split]. destruct (isspace c); [exact IH |].
  destruct (starts_word s).
  - destruct (split s) as [| w ws]; [repeat constructor; discriminate |].
    inversion IH; subst. constructor; [discriminate | assumption].
  - constructor; [discriminate | exact IH].
Qed.

Lemma join_space_empty (ws : list string) :
  Forall (fun w => w <> EmptyString) ws ->
  join_space ws = EmptyString -> ws = [].
Proof.
  intros H E. destruct ws as [| w ws]; [reflexivity |].
  inversion H as [| ? ? Hw Hws]; subst. exfalso.
  destruct w as [| c w]; [now apply Hw |].
  destruct ws; cbn in E; discriminate.
Qed.

Lemma join_space_cons_char (c : ascii) (w : string) (ws : list string) :
  join_space (String c w :: ws) = String c (join_space (w :: ws)).
Proof. destruct ws; reflexivity. Qed.

(** Collapsing the whitespace runs and stripping leaves the words, one space
    between two of them. *)
Lemma strip_re_sub_ws (s : string) :
  strip (re_sub_ws s) = join_space (split s).
Proof.
  unfold strip, re_sub_ws. rewrite lstrip_sub_ws_runs.
  induction s as [| c s IH]; [reflexivity |].
  cbn [sub_ws_runs split]. destruct (isspace c) eqn:E; [exact IH |].
  rewrite (rstrip_nonspace _ _ E).
  destruct s as [| d s]; [reflexivity |].
  cbn [starts_word]. cbn [sub_ws_runs] in IH |- *.
  destruct (isspace d) eqn:Ed; cbn [negb].
  - (* a run of whitespace follows: the word ends here *)
    cbn [rstrip]. change (isspace " ") with true. cbn iota.
    rewrite IH.
    destruct (join_space (split (String d s))) eqn:J.
    + apply join_space_empty in J; [| apply split_words_nonempty].
      now rewrite J.
    + destruct (split (String d s)) as [| w ws]; [discriminate |].
      cbn [join_space]. now rewrite <- J.
  - (* the word goes on *)
    rewrite IH.
    destruct (split (String d s)) as [| w ws]; [reflexivity |].
    now rewrite join_space_cons_char.
Qed.

Lemma map_str_app (f : ascii -> ascii) (a b : string) :
  map_str f (a ++ b)%string = (map_str f a ++ map_str f b)%string.
Proof. induction a as [| c a IH]; [reflexivity |]. cbn. now rewrite IH. Qed.

Lemma lower_join_space (ws : list string) :
  lower (join_space ws) = join_space (map lower ws).
Proof.
  induction ws as [| w ws IH]; [reflexivity |].
  destruct ws as [| w' ws]; [reflexivity |].
  change (join_space (w :: w' :: ws)) with (w ++ " " ++ join_space (w' :: ws))%string.
  change (join_space (map lower (w :: w' :: ws)))
    with (lower w ++ " " ++ join_space (map lower (w' :: ws)))%string.
  unfold lower in *. rewrite !map_str_app, IH. reflexivity.
Qed.


(** ** More facts about text: words and cleaning twice *)

Definition nospace (w : string) : Prop :=
  w <> EmptyString
  /\ Forall (fun c => isspace c = false) (list_ascii_of_string w).

Lemma isspace_lower_char (c : ascii) : isspace (lower_char c) = isspace c.
Proof. destruct c as [[] [] [] [] [] [] [] []]; reflexivity. Qed.

Lemma lower_char_idempotent (c : ascii) :
  lower_char (lower_char c) = lower_char c.
Proof. destruct c as [[] [] [] [] [] [] [] []]; reflexivity. Qed.

Lemma lower_idempotent (s : string) : lower (lower s) = lower s.
Proof.
  unfold lower. induction s as [| c s IH]; [reflexivity |].
  cbn [map_str]. now rewrite lower_char_idempotent, IH.
Qed.

Lemma nospace_lower (w : string) : nospace w -> nospace (lower w).
Proof.
  intros [Hne H]. split.
  - destruct w; [congruence | discriminate].
  - clear Hne. unfold lower. induction w as [| c w IH]; [constructor |].
    cbn in *. inversion H; subst. constructor; [| now apply IH].
    now rewrite isspace_lower_char.
Qed.

Lemma split_words_nospace (s : string) : Forall nospace (split s).
Proof.
  induction s as [| c s IH]; [constructor |].
  cbn [split]. destruct (isspace c) eqn:E; [exact IH |].
  assert (One : nospace (String c EmptyString)).
  { split; [discriminate | repeat constructor; exact E]. }
  destruct (starts_word s).
  - destruct (split s) as [| w ws]; [now constructor |].
    inversion IH as [| ? ? [_ Hw] Hws]; subst.
    constructor; [| exact Hws].
    split; [discriminate | cbn; now constructor].
  - now constructor.
Qed.

Lemma split_word_then (w rest : string) :
  nospace w -> split (w ++ String " " rest) = w :: split rest.
Proof.
  intros [Hne H]. induction w as [| c w IH]; [congruence |].
  cbn in H. inversion H as [| ? ? Hc Hw]; subst.
  cbn [append split]. rewrite Hc.
  destruct w as [| d w].
  - cbn [append starts_word]. change (isspace " ") with true. cbn [negb].
    cbn [split]. now change (isspace " ") with true.
  - cbn [append starts_word]. inversion Hw as [| ? ? Hd _]; subst.
    rewrite Hd. cbn [negb].
    change (String d (w ++ String " " rest))
      with (String d w ++ String " " rest)%string.
    rewrite IH by (discriminate || exact Hw). reflexivity.
Qed.

Lemma split_word (w : string) : nospace w -> split w = [w].
Proof.
  intros [Hne H]. induction w as [| c w IH]; [congruence |].
  cbn in H. inversion H as [| ? ? Hc Hw]; subst.
  cbn [split]. rewrite Hc. destruct w as [| d w]; [reflexivity |].
  cbn [starts_word]. inversion Hw as [| ? ? Hd _]; subst. rewrite Hd.
  cbn [negb]. rewrite IH by (discriminate || exact Hw). reflexivity.
Qed.

(** Splitting what joining made gives the words back. *)
Lemma split_join_space (ws : list string) :
  Forall nospace ws -> split (join_space ws) = ws.
Proof.
  induction ws as [| w ws IH]; intros H; [reflexivity |].
  inversion H as [| ? ? Hw Hws]; subst.
  destruct ws as [| w' ws]; [now apply split_word |].
  change (join_space (w :: w' :: ws))
    with (w ++ String " " (join_space (w' :: ws)))%string.
  rewrite split_word_then by exact Hw. now rewrite IH.
Qed.


End Py.

(* ===================================================================== *)
(** * The fetcher: [scripts/download_data.py] *)
(* ===================================================================== *)

Module DownloadData.

(** [YEARS = range(2018, 2025)] *)
Definition YEARS : list Z := map Z.of_nat (seq 2018 7).

Definition BOROUGHS : list string :=
  ["manhattan"; "bronx"; "brooklyn"; "queens"; "staten_island"].

Definition BASE_URL : string :=
  "https://www.nyc.gov/assets/finance/downloads/pdf/rolling_sales/annualized-sales/".

(** [OUTPUT_DIR = os.path.join('data', 'raw')] *)
Definition OUTPUT_DIR : string := Py.path_join "data" "raw".

(** What [requests.get(url, timeout=30)] does: it answers with a status code
    and a body, or raises a [RequestException]. *)
Inductive response :=
| Response (status_code : nat) (content : string)
| RequestException (e : string).

(** What the script prints. *)
Inductive message :=
| MsgDownloading (filename : string)       (* "Downloading {filename}..." *)
| MsgSuccess (basename : string)           (* "  SUCCESS: Saved to ..." *)
| MsgFailedStatus (status_code : nat) (url : string)
| MsgFailedError (e : string).

(** The script's effects: the requests sent, the files written (opening
    and writing a file is taken to succeed), the lines printed, and the
    loop's counter. *)
Record state := mkState {
  requested : list string;
  saved : list (string * string);
  stdout : list message;
  downloaded_count : nat
}.

Definition initial : state := mkState [] [] [] 0.

Section Fetch.

Variable requests_get : string -> response.

(** [download_file(url, filepath)]: the state after the call and the
    boolean it returns. *)
Definition download_file (url filepath : string) (st : state) : state * bool :=
  let st := mkState (requested st ++ [url]) (saved st) (stdout st)
                    (downloaded_count st) in
  match requests_get url with
  | Response status_code content =>
      if Nat.eqb status_code 200 then
        (mkState (requested st) (saved st ++ [(filepath, content)])
                 (stdout st ++ [MsgSuccess (Py.basename filepath)])
                 (downloaded_count st), true)
      else
        (mkState (requested st) (saved st)
                 (stdout st ++ [MsgFailedStatus status_code url])
                 (downloaded_count st), false)
  | RequestException e =>
      (mkState (requested st) (saved st) (stdout st ++ [MsgFailedError e])
               (downloaded_count st), false)
  end.

(** The local variables of one iteration of the main loop. *)
Record locals := mkLocals {
  file_borough_name : string;
  filename : string;
  file_url : string;
  local_filepath : string
}.

(** The assignments of the loop body, with the hyphenation step
    ([borough.replace('_', '-')] and the [staten_island] special case) taken
    as [adjust], so that its influence on the other variables can be
    stated. *)
Definition assignments_with (adjust : string -> string)
    (year : Z) (borough : string) : locals :=
  let file_borough_name := adjust borough in
  let filename := (Py.str_int year ++ "_" ++ borough ++ ".xlsx")%string in
  let file_url := (BASE_URL ++ Py.str_int year ++ "/" ++ filename)%string in
  let local_filepath := Py.path_join OUTPUT_DIR filename in
  mkLocals file_borough_name filename file_url local_filepath.

(** The hyphenation step as the script writes it. *)
Definition hyphenate (borough : string) : string :=
  let file_borough_name := Py.replace "_" "-" borough in
  if String.eqb borough "staten_island" then "staten-island"
  else file_borough_name.

Definition assignments : Z -> string -> locals := assignments_with hyphenate.

(** One iteration: the assignments, the print, the download, the counter.
    The pause of one second between two requests changes none of these. *)
Definition iteration_with (adjust : string -> string)
    (year : Z) (borough : string) (st : state) : state :=
  let l := assignments_with adjust year borough in
  let st := mkState (requested st) (saved st)
                    (stdout st ++ [MsgDownloading (filename l)])
                    (downloaded_count st) in
  let '(st, ok) := download_file (file_url l) (local_filepath l) st in
  if ok then mkState (requested st) (saved st) (stdout st)
                     (downloaded_count st + 1)
  else st.

(** [for year in YEARS: for borough in BOROUGHS: ...] *)
Definition main_loop_with (adjust : string -> string) (st : state) : state :=
  fold_left
    (fun st year =>
       fold_left (fun st borough => iteration_with adjust year borough st)
                 BOROUGHS st)
    YEARS st.

Definition main_loop : state -> state := main_loop_with hyphenate.

End Fetch.

(** The fetch target the URL template gives for a year and a borough, with
    the borough's underscore name. *)
Definition underscore_url (year : Z) (borough : string) : string :=
  (BASE_URL ++ Py.str_int year ++ "/" ++ Py.str_int year ++ "_" ++ borough
   ++ ".xlsx")%string.

Definition underscore_path (year : Z) (borough : string) : string :=
  ("data/raw/" ++ Py.str_int year ++ "_" ++ borough ++ ".xlsx")%string.

(** The paths a list of saved files may hold: those of the enumeration. *)
Definition expected_path (p : string) : Prop :=
  exists year borough,
    In year YEARS /\ In borough BOROUGHS /\ p = underscore_path year borough.

(** [total_files = len(YEARS) * len(BOROUGHS)] *)
Definition total_files : nat := length YEARS * length BOROUGHS.

(** What one iteration saves: the body of the answer under the local path
    when the status is 200, and nothing for another status or a
    [RequestException]. *)
Definition fetched_one (requests_get : string -> response)
    (year : Z) (borough : string) : list (string * string) :=
  match requests_get (underscore_url year borough) with
  | Response status_code content =>
      if Nat.eqb status_code 200
      then [(underscore_path year borough, content)]
      else []
  | RequestException _ => []
  end.

(** What a whole run saves, in the order of the enumeration. *)
Definition fetched (requests_get : string -> response)
  : list (string * string) :=
  flat_map (fun year => flat_map (fetched_one requests_get year) BOROUGHS)
           YEARS.

(** No text stands twice in the list. *)
Fixpoint distinct (l : list string) : bool :=
  match l with
  | [] => true
  | x :: l' => negb (existsb (String.eqb x) l') && distinct l'
  end.

(** ** Facts about the fetcher *)

Lemma filename_not_absolute (year : Z) (rest : string) :
  Py.startswith (Py.str_int year ++ "_" ++ rest)%string "/" = false.
Proof.
  unfold Py.str_int, NilEmpty.string_of_int.
  destruct (Z.to_int year) as [d | d]; [destruct d; reflexivity | reflexivity].
Qed.

Lemma local_filepath_eq (adjust : string -> string) (year : Z) (borough : string) :
  local_filepath (assignments_with adjust year borough)
  = underscore_path year borough.
Proof.
  unfold assignments_with, underscore_path; cbn [local_filepath].
  unfold Py.path_join at 1.
  rewrite filename_not_absolute. reflexivity.
Qed.

Lemma iteration_adjust_irrelevant requests_get adjust year borough st :
  iteration_with requests_get adjust year borough st
  = iteration_with requests_get hyphenate year borough st.
Proof. reflexivity. Qed.

Lemma iteration_requested requests_get adjust year borough st :
  requested (iteration_with requests_get adjust year borough st)
  = requested st ++ [underscore_url year borough].
Proof.
  unfold iteration_with, download_file; cbn [file_url assignments_with].
  change (BASE_URL ++ Py.str_int year ++ "/" ++
          Py.str_int year ++ "_" ++ borough ++ ".xlsx")%string
    with (underscore_url year borough).
  destruct (requests_get (underscore_url year borough)) as [code body | e];
    [destruct (Nat.eqb code 200) |]; reflexivity.
Qed.

Lemma iteration_saved requests_get adjust year borough st :
  saved (iteration_with requests_get adjust year borough st) = saved st
  \/ exists content,
       saved (iteration_with requests_get adjust year borough st)
       = saved st ++ [(underscore_path year borough, content)].
Proof.
  unfold iteration_with, download_file.
  rewrite local_filepath_eq.
  destruct (requests_get _) as [code body | e];
    [destruct (Nat.eqb code 200) |]; cbn [saved]; eauto.
Qed.

Lemma inner_loop_requested requests_get adjust year bs st :
  requested (fold_left (fun st b => iteration_with requests_get adjust year b st)
                       bs st)
  = requested st ++ map (underscore_url year) bs.
Proof.
  revert st; induction bs as [| b bs IH]; intros st; cbn [fold_left map].
  - now rewrite List.app_nil_r.
  - rewrite IH, iteration_requested, <- List.app_assoc. reflexivity.
Qed.

Lemma outer_loop_requested requests_get adjust ys bs st :
  requested
    (fold_left
       (fun st y =>
          fold_left (fun st b => iteration_with requests_get adjust y b st) bs st)
       ys st)
  = requested st ++ flat_map (fun y => map (underscore_url y) bs) ys.
Proof.
  revert st; induction ys as [| y ys IH]; intros st; cbn [fold_left flat_map].
  - now rewrite List.app_nil_r.
  - rewrite IH, inner_loop_requested, <- List.app_assoc. reflexivity.
Qed.

Lemma inner_loop_saved requests_get adjust (P : string -> Prop) year bs st :
  (forall b, In b bs -> P (underscore_path year b)) ->
  Forall (fun f => P (fst f)) (saved st) ->
  Forall (fun f => P (fst f))
    (saved (fold_left (fun st b => iteration_with requests_get adjust year b st)
                      bs st)).
Proof.
  revert st; induction bs as [| b bs IH]; intros st Hbs Hst; cbn [fold_left].
  - exact Hst.
  - apply IH; [intros; apply Hbs; now right |].
    destruct (iteration_saved requests_get adjust year b st) as [E | [c E]];
      rewrite E; [exact Hst |].
    apply Forall_app; split; [exact Hst |].
    constructor; [apply Hbs; now left | constructor].
Qed.

Lemma outer_loop_saved requests_get adjust (P : string -> Prop) ys bs st :
  (forall y b, In y ys -> In b bs -> P (underscore_path y b)) ->
  Forall (fun f => P (fst f)) (saved st) ->
  Forall (fun f => P (fst f))
    (saved
       (fold_left
          (fun st y =>
             fold_left (fun st b => iteration_with requests_get adjust y b st)
                       bs st)
          ys st)).
Proof.
  revert st; induction ys as [| y ys IH]; intros st Hys Hst; cbn [fold_left].
  - exact Hst.
  - apply IH; [intros; apply Hys; [now right | assumption] |].
    apply inner_loop_saved; [intros; apply Hys; [now left | assumption] | exact Hst].
Qed.

(** C8: every file name, fetch URL and local path is built from the
    borough's underscore name.  The hyphenated name is computed (it is
    [staten-island] for [staten_island]) and then used by nothing: whatever
    the hyphenation step returns, the loop sends the same requests, saves
    the same files, prints the same lines and counts the same. *)
Theorem hyphenated_borough_name_is_unused (requests_get : string -> response) :
  (forall adjust year borough,
      let l := assignments_with adjust year borough in
      filename l = (Py.str_int year ++ "_" ++ borough ++ ".xlsx")%string
      /\ file_url l = underscore_url year borough
      /\ local_filepath l = underscore_path year borough)
  /\ (forall adjust st,
        main_loop_with requests_get adjust st = main_loop requests_get st)
  /\ file_borough_name (assignments 2018 "staten_island") = "staten-island"
  /\ filename (assignments 2018 "staten_island") = "2018_staten_island.xlsx"
  /\ requested (main_loop requests_get initial)
     = flat_map (fun y => map (underscore_url y) BOROUGHS) YEARS
  /\ Forall (fun f => expected_path (fst f))
            (saved (main_loop requests_get initial)).
Proof.
  split; [| split; [| split; [| split; [| split]]]].
  - intros adjust year borough l. subst l.
    split; [reflexivity | split; [reflexivity | apply local_filepath_eq]].
  - intros adjust st. unfold main_loop, main_loop_with.
    f_equal.
  - reflexivity.
  - reflexivity.
  - apply (outer_loop_requested requests_get hyphenate YEARS BOROUGHS initial).
  - apply (outer_loop_saved requests_get hyphenate expected_path YEARS BOROUGHS).
    + intros y b Hy Hb. exists y, b. auto.
    + constructor.
Qed.

(** ** More facts about the fetcher: what a run saves and counts *)

Lemma iteration_effect requests_get adjust year borough st :
  saved (iteration_with requests_get adjust year borough st)
  = saved st ++ fetched_one requests_get year borough
  /\ downloaded_count (iteration_with requests_get adjust year borough st)
     = downloaded_count st + length (fetched_one requests_get year borough).
Proof.
  unfold iteration_with, download_file, fetched_one.
  rewrite local_filepath_eq. cbn [file_url assignments_with].
  change (BASE_URL ++ Py.str_int year ++ "/" ++
          Py.str_int year ++ "_" ++ borough ++ ".xlsx")%string
    with (underscore_url year borough).
  destruct (requests_get (underscore_url year borough)) as [code body | e];
    [destruct (Nat.eqb code 200) |]; cbn [saved downloaded_count length];
    rewrite ?List.app_nil_r; split; auto; lia.
Qed.

Lemma inner_loop_effect requests_get adjust year bs :
  forall st st',
    st' = fold_left (fun st b => iteration_with requests_get adjust year b st)
                    bs st ->
    saved st' = saved st ++ flat_map (fetched_one requests_get year) bs
    /\ downloaded_count st'
       = downloaded_count st
         + length (flat_map (fetched_one requests_get year) bs).
Proof.
  induction bs as [| b bs IH]; intros st st' ->; cbn [fold_left flat_map].
  - rewrite List.app_nil_r. cbn. split; [reflexivity | lia].
  - destruct (IH (iteration_with requests_get adjust year b st) _ eq_refl)
      as [Hs Hc]. rewrite Hs, Hc.
    destruct (iteration_effect requests_get adjust year b st) as [Hs' Hc'].
    rewrite Hs', Hc', length_app, <- List.app_assoc.
    split; [reflexivity | lia].
Qed.

Lemma outer_loop_effect requests_get adjust ys bs :
  forall st st',
    st' = fold_left
            (fun st y =>
               fold_left (fun st b => iteration_with requests_get adjust y b st)
                         bs st)
            ys st ->
    saved st'
    = saved st ++ flat_map (fun y => flat_map (fetched_one requests_get y) bs) ys
    /\ downloaded_count st'
       = downloaded_count st
         + length (flat_map (fun y => flat_map (fetched_one requests_get y) bs)
                            ys).
Proof.
  induction ys as [| y ys IH]; intros st st' ->; cbn [fold_left flat_map].
  - rewrite List.app_nil_r. cbn. split; [reflexivity | lia].
  - destruct (IH (fold_left
                    (fun st b => iteration_with requests_get adjust y b st)
                    bs st) _ eq_refl) as [Hs Hc]. rewrite Hs, Hc.
    destruct (inner_loop_effect requests_get adjust y bs st _ eq_refl)
      as [Hs' Hc'].
    rewrite Hs', Hc', length_app, <- List.app_assoc.
    split; [reflexivity | lia].
Qed.

Lemma fetched_one_length requests_get year borough :
  length (fetched_one requests_get year borough) <= 1.
Proof.
  unfold fetched_one.
  destruct (requests_get _) as [code body | e];
    [destruct (Nat.eqb code 200) |]; cbn; lia.
Qed.

Lemma flat_map_length_le {A B} (f : A -> list B) (n : nat) (l : list A) :
  (forall a, length (f a) <= n) -> length (flat_map f l) <= length l * n.
Proof.
  intros H. induction l as [| a l IH]; cbn [flat_map length]; [lia |].
  rewrite length_app. specialize (H a). lia.
Qed.

(** X1: the counter of the main loop: every pair of the enumeration is asked
    for once, whatever the answers; the files saved are the bodies of the
    answers of status 200, each under its local path, in the order of the
    enumeration; and [downloaded_count] grows by the number of files saved,
    which is at most [total_files]. *)
Theorem downloaded_count_counts_saved_files
    (requests_get : string -> response) (st : state) :
  let st' := main_loop requests_get st in
  saved st' = saved st ++ fetched requests_get
  /\ downloaded_count st'
     = downloaded_count st + length (fetched requests_get)
  /\ length (requested st') = length (requested st) + total_files
  /\ length (fetched requests_get) <= total_files
  /\ (forall path content,
        In (path, content) (fetched requests_get)
        <-> exists year borough,
              In year YEARS /\ In borough BOROUGHS
              /\ path = underscore_path year borough
              /\ requests_get (underscore_url year borough)
                 = Response 200 content).
Proof.
  cbn zeta. unfold main_loop, main_loop_with.
  destruct (outer_loop_effect requests_get hyphenate YEARS BOROUGHS st _
              eq_refl) as [Hs Hc].
  split; [exact Hs |]. split; [exact Hc |]. split; [| split].
  - rewrite outer_loop_requested, length_app. apply f_equal. reflexivity.
  - unfold fetched, total_files.
    etransitivity; [apply (flat_map_length_le _ (length BOROUGHS)) |].
    + intros y. etransitivity; [apply (flat_map_length_le _ 1) |]; [| lia].
      intros b. apply fetched_one_length.
    + lia.
  - intros path content. unfold fetched. rewrite in_flat_map. split.
    + intros (y & Hy & H). apply in_flat_map in H. destruct H as (b & Hb & H).
      exists y, b. unfold fetched_one in H.
      destruct (requests_get (underscore_url y b)) as [code body | e];
        [| destruct H].
      destruct (Nat.eqb code 200) eqn:E; [| destruct H].
      apply Nat.eqb_eq in E. subst code.
      destruct H as [[= <- <-] | []]. auto.
    + intros (y & b & Hy & Hb & -> & H). exists y. split; [exact Hy |].
      apply in_flat_map. exists b. split; [exact Hb |].
      unfold fetched_one. rewrite H. now left.
Qed.

Lemma distinct_NoDup (l : list string) : distinct l = true -> NoDup l.
Proof.
  induction l as [| x l IH]; cbn [distinct]; [constructor |].
  intros H. apply andb_true_iff in H. destruct H as [Hx Hl].
  constructor; [| now apply IH].
  intros Hin. apply negb_true_iff in Hx.
  assert (E : existsb (String.eqb x) l = true).
  { apply existsb_exists. exists x. split; [exact Hin | apply String.eqb_refl]. }
  congruence.
Qed.

Lemma NoDup_flat_map_optional {A} (g : A -> string)
    (f : A -> list (string * string)) (l : list A) :
  (forall a, f a = [] \/ exists c, f a = [(g a, c)]) ->
  NoDup (map g l) ->
  NoDup (map fst (flat_map f l))
  /\ forall p, In p (map fst (flat_map f l)) -> In p (map g l).
Proof.
  intros Hf. induction l as [| a l IH]; intros Hnd; cbn [flat_map map].
  - split; [constructor | intros p []].
  - inversion Hnd as [| ? ? Ha Hl]; subst. destruct (IH Hl) as [IH1 IH2].
    destruct (Hf a) as [-> | [c ->]]; cbn [app map fst].
    + split; [exact IH1 | intros p Hp; right; now apply IH2].
    + split.
      * constructor; [| exact IH1]. intros Hin. apply Ha. now apply IH2.
      * intros p [<- | Hp]; [now left | right; now apply IH2].
Qed.

Lemma flat_map_list_prod {A B C} (h : A -> B -> list C) (xs : list A)
    (ys : list B) :
  flat_map (fun x => flat_map (h x) ys) xs
  = flat_map (fun p => h (fst p) (snd p)) (list_prod xs ys).
Proof.
  induction xs as [| x xs IH]; [reflexivity |].
  cbn [flat_map list_prod]. rewrite flat_map_app, <- IH. f_equal.
  clear. induction ys as [| y ys IH]; [reflexivity |].
  cbn [flat_map map]. now rewrite IH.
Qed.

(** X2: no file of a run is written over another: the local paths of the files
    a run saves are pairwise distinct, whatever the answers. *)
Theorem saved_paths_are_distinct (requests_get : string -> response) :
  NoDup (map fst (saved (main_loop requests_get initial))).
Proof.
  unfold main_loop, main_loop_with.
  rewrite (proj1 (outer_loop_effect requests_get hyphenate YEARS BOROUGHS
                    initial _ eq_refl)).
  cbn [saved initial app]. rewrite flat_map_list_prod.
  apply (NoDup_flat_map_optional
           (fun p => underscore_path (fst p) (snd p))).
  - intros [y b]. unfold fetched_one. cbn [fst snd].
    destruct (requests_get (underscore_url y b)) as [code body | e];
      [destruct (Nat.eqb code 200) |]; eauto.
  - apply distinct_NoDup. vm_compute. reflexivity.
Qed.

End DownloadData.

(* ===================================================================== *)
(** * The normalizer: [scripts/process_sales_data.py] *)
(* ===================================================================== *)

Module ProcessSalesData.

(** ** Configuration *)

Definition CANONICAL_COLUMNS : list string :=
  [ "borough"; "neighborhood"; "building_class_category";
    "tax_class_at_present"; "block"; "lot"; "easement";
    "building_class_at_present"; "address"; "apartment_number"; "zip_code";
    "residential_units"; "commercial_units"; "total_units";
    "land_square_feet"; "gross_square_feet"; "year_built";
    "tax_class_at_time_of_sale"; "building_class_at_time_of_sale";
    "sale_price"; "sale_date" ].

(** The dict literal, in the order it is written; no key is written twice
    (see [COLUMN_MAP_keys_distinct]). *)
Definition COLUMN_MAP : list (string * string) :=
  [ ("borough", "borough");
    ("neighborhood", "neighborhood");
    ("building class category", "building_class_category");
    ("tax class as of final roll 18/19", "tax_class_at_present");
    ("tax class at present", "tax_class_at_present");
    ("block", "block");
    ("lot", "lot");
    ("ease-ment", "easement");
    ("building class as of final roll 18/19", "building_class_at_present");
    ("building class at present", "building_class_at_present");
    ("address", "address");
    ("apartment number", "apartment_number");
    ("zip code", "zip_code");
    ("residential units", "residential_units");
    ("commercial units", "commercial_units");
    ("total units", "total_units");
    ("land square feet", "land_square_feet");
    ("gross square feet", "gross_square_feet");
    ("year built", "year_built");
    ("tax class at time of sale", "tax_class_at_time_of_sale");
    ("building class at time of sale", "building_class_at_time_of_sale");
    ("sale price", "sale_price");
    ("sale date", "sale_date") ].

(** [d.get(k)] on a dict given by its items. *)
Fixpoint dict_get (d : list (string * string)) (k : string) : option string :=
  match d with
  | [] => None
  | (k', v) :: d' => if String.eqb k k' then Some v else dict_get d' k
  end.

(** [x in xs] for a list of labels. *)
Definition mem (x : string) (xs : list string) : bool :=
  existsb (String.eqb x) xs.

(** ** Exceptions, results, and the script's effects *)

Inductive exn :=
| ValueError (msg : string)
| TypeError (msg : string)
| KeyError (key : string)
| OSError (msg : string)
| BadZipFile (msg : string)
| InvalidIndexError (msg : string).

Inductive result (A : Type) :=
| Ok (a : A)
| Raise (e : exn).
Arguments Ok {A} a.
Arguments Raise {A} e.

(** ** Cell values and tables *)

(** A number as pandas holds it, by its exact decimal value
    [mantissa * 10 ^ exponent], or an infinity.  Rounding to a binary
    float is outside the model. *)
Inductive num :=
| Dec (mantissa exponent : Z)
| Inf (negative : bool).

(** What a cell of a table can hold: the three missing markers ([None],
    [nan], [NaT]), text, a number, or a timestamp (nanoseconds since the
    epoch). *)
Inductive value :=
| VNone
| VNaN
| VNaT
| VStr (s : string)
| VNum (n : num)
| VDate (ns : Z).

(** [pd.isna(v)] *)
Definition isna (v : value) : bool :=
  match v with
  | VNone | VNaN | VNaT => true
  | _ => false
  end.

(** A table: its column labels in order (a label may repeat), and its rows,
    each with its index label and one cell per column. *)
Record DataFrame := mkDataFrame {
  columns : list string;
  rows : list (nat * list value)
}.

(** What [df[col]] gives: a Series when one column has the label, a
    DataFrame (its columns' values) when several have it. *)
Inductive selection :=
| Series (values : list value)
| Frame (cols : list (list value)).

(** What the script prints. *)
Inductive message :=
| MsgProcessing (basename : string)        (* "Processing file: ..." *)
| MsgCouldNotProcess (file_path e : string) (* "Could not process ..." *)
| MsgFound (n : nat)                       (* "-> Found {n} rows." *)
| MsgNoExcelFiles (raw_data_path : string) (* "No Excel files found in ..." *)
| MsgNoData                  (* "No data was successfully processed." *)
| MsgCombining               (* "Combining all processed files..." *)
| MsgTotalRows (n : nat)     (* "Total combined rows: {n}" *)
| MsgSaving (output_file : string)         (* "Saving combined data to ..." *)
| MsgComplete                (* "Processing complete! ..." *)
| MsgNextSteps.              (* "Next steps: ..." *)

(** The effects of a run: the lines printed and the files written. *)
Record state := mkState {
  stdout : list message;
  written : list (string * DataFrame)
}.

Definition initial : state := mkState [] [].

(** A computation that prints, writes, and returns or raises. *)
Definition M (A : Type) : Type := state -> state * result A.

Definition ret {A} (a : A) : M A := fun st => (st, Ok a).

Definition raise {A} (e : exn) : M A := fun st => (st, Raise e).

Definition bind {A B} (m : M A) (k : A -> M B) : M B :=
  fun st =>
    match m st with
    | (st', Ok a) => k a st'
    | (st', Raise e) => (st', Raise e)
    end.

Definition lift {A} (r : result A) : M A := fun st => (st, r).

Definition print (m : message) : M unit :=
  fun st => (mkState (stdout st ++ [m]) (written st), Ok tt).

(** [try: body except ValueError as e: handler(e)] *)
Definition try_except_ValueError {A} (body : M A) (handler : string -> M A)
  : M A :=
  fun st =>
    match body st with
    | (st', Raise (ValueError msg)) => handler msg st'
    | other => other
    end.

Declare Scope py_scope.
Delimit Scope py_scope with py.
Notation "x <- m ;; k" := (bind m (fun x => k))
  (at level 61, m at next level, right associativity) : py_scope.
Notation "m ;;; k" := (bind m (fun _ => k))
  (at level 61, right associativity) : py_scope.

(** Binding in [result] alone, for the steps that print nothing. *)
Definition rbind {A B} (r : result A) (k : A -> result B) : result B :=
  match r with
  | Ok a => k a
  | Raise e => Raise e
  end.

(** ** Library behaviour the script relies on *)

(** Four behaviours of pandas and Python are taken as given rather than
    defined: how a number and a timestamp print, which labels the Excel
    reader gives the cells of a header row (text cells keep their text,
    blank ones are named [Unnamed: j], repeated names get a suffix), and
    which strings and numbers [to_datetime] reads as a date.  The last
    receives the whole Series too, because the reader may settle on a
    format from the Series' other entries. *)
Class Pandas := {
  str_num : num -> string;
  str_date : Z -> string;
  header_names : list value -> list string;
  parse_datetime : list value -> value -> option Z
}.

(** ** Numeric text, as [to_numeric] reads it *)

(** The C tokenizer's character classes. *)
Definition isdigit (c : ascii) : bool :=
  let n := nat_of_ascii c in (48 <=? n)%nat && (n <=? 57)%nat.

Definition isspace_ascii (c : ascii) : bool :=
  let n := nat_of_ascii c in
  (n =? 32)%nat || ((9 <=? n)%nat && (n <=? 13)%nat).

Definition digit_value (c : ascii) : Z := Z.of_nat (nat_of_ascii c - 48).

Fixpoint skip_space (s : string) : string :=
  match s with
  | EmptyString => EmptyString
  | String c s' => if isspace_ascii c then skip_space s' else s
  end.

(** Reads a run of digits: the number read so far, how many digits were
    read, and the rest of the text. *)
Fixpoint read_digits (acc : Z) (count : nat) (s : string) : Z * nat * string :=
  match s with
  | EmptyString => (acc, count, s)
  | String c s' =>
      if isdigit c then read_digits (10 * acc + digit_value c) (S count) s'
      else (acc, count, s)
  end.

(** Reads an optional sign: whether it was a minus, and the rest. *)
Definition read_sign (s : string) : bool * string :=
  match s with
  | String c s' =>
      if Ascii.eqb c "-" then (true, s')
      else if Ascii.eqb c "+" then (false, s')
      else (false, s)
  | EmptyString => (false, s)
  end.

(** The tokenizer's [xstrtod] with decimal point [.], exponent mark [e] or
    [E], no thousands separator, and trailing blanks skipped: blanks, a sign,
    digits, a point and digits, an exponent, blanks, and then the end of the
    text.  At least one digit must stand before the exponent; an exponent
    mark with no digit after it is not consumed, so the text does not end
    there and the reading fails. *)
Definition xstrtod (s : string) : option num :=
  let s := skip_space s in
  let '(negative, s) := read_sign s in
  let '(m, num_digits, s) := read_digits 0 0 s in
  let '(m, num_decimals, s) :=
    match s with
    | String c s' =>
        if Ascii.eqb c "." then read_digits m 0 s' else (m, 0, s)
    | EmptyString => (m, 0, s)
    end in
  if (num_digits + num_decimals =? 0)%nat then None
  else
    let '(exponent, s) :=
      match s with
      | String c s' =>
          if Ascii.eqb c "e" || Ascii.eqb c "E" then
            let '(exp_negative, s1) := read_sign s' in
            let '(n, exp_digits, s2) := read_digits 0 0 s1 in
            if (exp_digits =? 0)%nat then (0%Z, s)
            else ((if exp_negative then (- n)%Z else n), s2)
          else (0%Z, s)
      | EmptyString => (0%Z, s)
      end in
    match skip_space s with
    | EmptyString =>
        Some (Dec (if negative then (- m)%Z else m)
                  (exponent - Z.of_nat num_decimals))
    | _ => None
    end.

(** [floatify]: [xstrtod], and when that fails the spellings of infinity,
    in any case. *)
Definition floatify (s : string) : option num :=
  match xstrtod s with
  | Some n => Some n
  | None =>
      let l := Py.lower s in
      if String.eqb l "inf" || String.eqb l "+inf"
         || String.eqb l "infinity" || String.eqb l "+infinity"
      then Some (Inf false)
      else if String.eqb l "-inf" || String.eqb l "-infinity"
      then Some (Inf true)
      else None
  end.

(** [pd.to_numeric(..., errors='coerce')] on one entry of a Series of
    objects: a number stays, text is read by [floatify], and whatever is not
    read as a number becomes [nan]. *)
Definition to_numeric_value (v : value) : value :=
  match v with
  | VNum n => VNum n
  | VStr s =>
      match floatify s with
      | Some n => VNum n
      | None => VNaN
      end
  | VNone | VNaN | VNaT | VDate _ => VNaN
  end.

Section WithPandas.

Context {pandas : Pandas}.

(** [str(v)] *)
Definition str (v : value) : string :=
  match v with
  | VNone => "None"
  | VNaN => "nan"
  | VNaT => "NaT"
  | VStr s => s
  | VNum n => str_num n
  | VDate ns => str_date ns
  end.

(** [pd.to_datetime(..., errors='coerce')] on one entry of the Series
    [series]: a timestamp stays, a missing entry becomes [NaT], text and
    numbers are read by the library, and what it does not read becomes
    [NaT]. *)
Definition to_datetime_value (series : list value) (v : value) : value :=
  match v with
  | VDate ns => VDate ns
  | VNone | VNaN | VNaT => VNaT
  | VStr _ | VNum _ =>
      match parse_datetime series v with
      | Some ns => VDate ns
      | None => VNaT
      end
  end.

(** [pd.to_numeric(arg, errors='coerce')]: a Series is converted entry by
    entry; a DataFrame is refused. *)
Definition to_numeric (arg : selection) : result (list value) :=
  match arg with
  | Series values => Ok (map to_numeric_value values)
  | Frame _ =>
      Raise (TypeError "arg must be a list, tuple, 1-d array, or Series")
  end.

(** [pd.to_datetime(arg, errors='coerce')]: a Series is converted entry by
    entry; a DataFrame is taken for year, month and day columns, which one
    whose columns share a label does not offer. *)
Definition to_datetime (arg : selection) : result (list value) :=
  match arg with
  | Series values => Ok (map (to_datetime_value values) values)
  | Frame _ => Raise (ValueError "cannot assemble with duplicate keys")
  end.


(** ** Operations on tables *)

(** The positions at which [cols] holds the label [col], from [j] on. *)
Fixpoint positions_from (j : nat) (col : string) (cols : list string)
  : list nat :=
  match cols with
  | [] => []
  | c :: cols' =>
      if String.eqb c col then j :: positions_from (S j) col cols'
      else positions_from (S j) col cols'
  end.

Definition positions (col : string) (cols : list string) : list nat :=
  positions_from 0 col cols.

(** The cell of a row in column [j], and the values of column [j]. *)
Definition cell (j : nat) (r : nat * list value) : value := nth j (snd r) VNaN.

Definition column (j : nat) (df : DataFrame) : list value :=
  map (cell j) (rows df).

(** [df[col]] *)
Definition getitem (df : DataFrame) (col : string) : result selection :=
  match positions col (columns df) with
  | [] => Raise (KeyError col)
  | [j] => Ok (Series (column j df))
  | js => Ok (Frame (map (fun j => column j df) js))
  end.

(** [df[keys]] for a list of labels: for each key in turn, every column
    that has the label; a key that no column has is a [KeyError]. *)
Definition getitem_list (df : DataFrame) (keys : list string)
  : result DataFrame :=
  match find (fun k => negb (mem k (columns df))) keys with
  | Some k => Raise (KeyError k)
  | None =>
      let js := flat_map (fun k => positions k (columns df)) keys in
      Ok (mkDataFrame
            (map (fun j => nth j (columns df) "") js)
            (map (fun r => (fst r, map (fun j => cell j r) js)) (rows df)))
  end.

Fixpoint replace_at (j : nat) (v : value) (cells : list value) : list value :=
  match cells, j with
  | [], _ => []
  | _ :: t, O => v :: t
  | h :: t, S j' => h :: replace_at j' v t
  end.

(** [df[col] = values] for a Series (or a scalar broadcast to one): a new
    column at the end when no column has the label, and otherwise the new
    values in every column that has it. *)
Definition setitem (df : DataFrame) (col : string) (values : list value)
  : result DataFrame :=
  if negb (length values =? length (rows df))%nat then
    Raise (ValueError "Length of values does not match length of index")
  else
    match positions col (columns df) with
    | [] =>
        Ok (mkDataFrame
              (columns df ++ [col])
              (map (fun rv => (fst (fst rv), snd (fst rv) ++ [snd rv]))
                   (combine (rows df) values)))
    | js =>
        Ok (mkDataFrame
              (columns df)
              (map (fun rv =>
                      (fst (fst rv),
                       fold_left (fun cells j => replace_at j (snd rv) cells)
                                 js (snd (fst rv))))
                   (combine (rows df) values)))
    end.

(** [df[col] = frame] for the columns of a DataFrame: one for each column
    that has the label. *)
Definition setitem_frame (df : DataFrame) (col : string)
    (cols : list (list value)) : result DataFrame :=
  let js := positions col (columns df) in
  if negb (length js =? length cols)%nat then
    Raise (ValueError "Columns must be same length as key")
  else
    Ok (mkDataFrame
          (columns df)
          (map (fun ir =>
                  (fst (snd ir),
                   fold_left
                     (fun cells jc => replace_at (fst jc) (nth (fst ir) (snd jc) VNaN) cells)
                     (combine js cols) (snd (snd ir))))
               (combine (seq 0 (length (rows df))) (rows df)))).

(** [df.dropna(how='all')]: the rows whose every cell is missing go. *)
Definition has_value (r : nat * list value) : bool :=
  negb (forallb isna (snd r)).

Definition dropna_all (df : DataFrame) : DataFrame :=
  mkDataFrame (columns df) (filter has_value (rows df)).

(** [sel.astype(str)] *)
Definition astype_str (sel : selection) : selection :=
  match sel with
  | Series values => Series (map (fun v => VStr (str v)) values)
  | Frame cols => Frame (map (map (fun v => VStr (str v))) cols)
  end.

(** [df[col] = df[col].astype(str)] *)
Definition column_astype_str (df : DataFrame) (col : string)
  : result DataFrame :=
  rbind (getitem df col) (fun sel =>
    match astype_str sel with
    | Series values => setitem df col values
    | Frame cols => setitem_frame df col cols
    end).

(** The cell a row holds under the label [c] of [cols], [nan] when no
    column has the label. *)
Definition cell_of (cols : list string) (c : string) (r : nat * list value)
  : value :=
  match positions c cols with
  | j :: _ => cell j r
  | [] => VNaN
  end.

Fixpoint union_labels (seen : list string) (ls : list string) : list string :=
  match ls with
  | [] => seen
  | l :: ls' => union_labels (if mem l seen then seen else seen ++ [l]) ls'
  end.

Definition nodup_labels (ls : list string) : bool :=
  forallb (fun l => (length (positions l ls) =? 1)%nat) ls.

(** [pd.concat(dfs, ignore_index=True)]: the rows of the tables one after
    the other under a fresh index.  Tables with the same labels keep them;
    tables whose labels differ are given the union of the labels, each table
    filled with [nan] where it has no such column, which pandas refuses when
    a table has a repeated label. *)
Definition concat (dfs : list DataFrame) : result DataFrame :=
  match dfs with
  | [] => Raise (ValueError "No objects to concatenate")
  | df0 :: _ =>
      let reindex (rs : list (list value)) := combine (seq 0 (length rs)) rs in
      if forallb (fun df => if list_eq_dec string_dec (columns df) (columns df0)
                            then true else false) dfs
      then Ok (mkDataFrame (columns df0)
                           (reindex (flat_map (fun df => map snd (rows df)) dfs)))
      else if forallb (fun df => nodup_labels (columns df)) dfs
      then
        let all := fold_left (fun seen df => union_labels seen (columns df))
                             dfs [] in
        Ok (mkDataFrame all
              (reindex
                 (flat_map
                    (fun df => map (fun r => map (fun c => cell_of (columns df) c r) all)
                                   (rows df))
                    dfs)))
      else Raise (InvalidIndexError
                    "Reindexing only valid with uniquely valued Index objects")
  end.


(** ** The world outside the script *)

(** What the script finds and what its calls to the system do: the
    directory two levels above the script file, whether creating the output
    directory raises, the names the raw directory lists (or the exception),
    the rows of the sheet the Excel reader opens at a path (or the exception
    it raises), and whether writing a table as Parquet raises. *)
Record world := mkWorld {
  project_root : string;
  makedirs : string -> option exn;
  listdir : string -> result (list string);
  excel : string -> result (list (list value));
  parquet : string -> DataFrame -> option exn
}.

(** [cells] cut or filled with [nan] to [n] entries. *)
Definition fit (n : nat) (cells : list value) : list value :=
  firstn n cells ++ repeat VNaN (n - length cells).

(** [pd.read_excel(file_path, header=None, nrows=nrows)]: the first
    [nrows] rows of the sheet, none of them taken as a header. *)
Definition read_excel_raw (w : world) (file_path : string) (nrows : nat)
  : result (list (list value)) :=
  rbind (excel w file_path) (fun sheet => Ok (firstn nrows sheet)).

(** [pd.read_excel(file_path, skiprows=skiprows)]: after [skiprows] rows,
    the next row gives the labels and the following rows the data, indexed
    from 0. *)
Definition read_excel (w : world) (file_path : string) (skiprows : nat)
  : result DataFrame :=
  rbind (excel w file_path) (fun sheet =>
    match skipn skiprows sheet with
    | [] => Ok (mkDataFrame [] [])
    | header :: data =>
        let labels := header_names header in
        Ok (mkDataFrame labels
              (combine (seq 0 (length data))
                       (map (fit (length labels)) data)))
    end).

(** ** The script's functions *)

(** The test of [find_header_row]'s loop: some cell of the row is the
    keyword once printed, stripped and put in upper case.  The loop: the
    index of the first such row, counting from [i]. *)
Definition row_has_keyword (keyword : string) (row : list value) : bool :=
  existsb (fun c => String.eqb (Py.upper (Py.strip (str c))) keyword) row.

Fixpoint first_matching_row (keyword : string) (i : nat)
    (df_preview : list (list value)) : option nat :=
  match df_preview with
  | [] => None
  | row :: rest =>
      if row_has_keyword keyword row then Some i
      else first_matching_row keyword (S i) rest
  end.

Definition header_not_found (keyword file_path : string) : exn :=
  ValueError ("Header keyword '" ++ keyword
              ++ "' not found in the first 10 rows of " ++ file_path)%string.

Definition find_header_row (w : world) (file_path : string) (keyword : string)
  : result nat :=
  rbind (read_excel_raw w file_path 10) (fun df_preview =>
    match first_matching_row keyword 0 df_preview with
    | Some i => Ok i
    | None => Raise (header_not_found keyword file_path)
    end).

(** The inner [clean_name]; a label is text already, so [str(col)] is the
    label. *)
Definition clean_name (col : string) : string :=
  Py.lower (Py.strip (Py.re_sub_ws col)).

(** [df.rename(columns=column_map)] on one label. *)
Definition rename (column_map : list (string * string)) (label : string)
  : string :=
  match dict_get column_map label with
  | Some name => name
  | None => label
  end.

Definition clean_column_names (df : DataFrame)
    (column_map : list (string * string)) : DataFrame :=
  let df := mkDataFrame (map clean_name (columns df)) (rows df) in
  mkDataFrame (map (rename column_map) (columns df)) (rows df).

Definition numeric_cols : list string :=
  [ "sale_price"; "gross_square_feet"; "land_square_feet";
    "residential_units"; "commercial_units"; "total_units"; "year_built";
    "zip_code"; "block"; "lot" ].

(** [for col in cols: body(df, col)], where the body may raise. *)
Fixpoint for_each (cols : list string)
    (body : DataFrame -> string -> result DataFrame) (df : DataFrame)
  : result DataFrame :=
  match cols with
  | [] => Ok df
  | col :: cols' => rbind (body df col) (for_each cols' body)
  end.

(** The bodies of the loops and the date line of [process_sales_file]:
    [if col not in df.columns: df[col] = None],
    [df[col] = pd.to_numeric(df[col], errors='coerce')] and
    [df['sale_date'] = pd.to_datetime(df['sale_date'], errors='coerce')]. *)
Definition ensure_column (df : DataFrame) (col : string) : result DataFrame :=
  if negb (mem col (columns df))
  then setitem df col (repeat VNone (length (rows df)))
  else Ok df.

Definition coerce_numeric_column (df : DataFrame) (col : string)
  : result DataFrame :=
  rbind (getitem df col) (fun sel =>
  rbind (to_numeric sel) (fun values =>
  setitem df col values)).

Definition coerce_date_column (df : DataFrame) (col : string)
  : result DataFrame :=
  rbind (getitem df col) (fun sel =>
  rbind (to_datetime sel) (fun values =>
  setitem df col values)).

(** Steps 2 to 5 of [process_sales_file]: the table as it stands just before
    the fully empty rows are dropped. *)
Definition load_and_coerce (w : world) (file_path : string)
    (header_row_index : nat) : result DataFrame :=
  (* 2. Load the data using the correct header row *)
  rbind (read_excel w file_path header_row_index) (fun df =>
  (* 3. Clean and standardize column names *)
  let df := clean_column_names df COLUMN_MAP in
  (* 4. Ensure all canonical columns exist *)
  rbind (for_each CANONICAL_COLUMNS ensure_column df) (fun df =>
  (* Keep only the columns we defined as standard *)
  rbind (getitem_list df CANONICAL_COLUMNS) (fun df =>
  (* 5. Convert data types *)
  rbind (for_each numeric_cols coerce_numeric_column df) (fun df =>
  coerce_date_column df "sale_date")))).

Definition process_sales_file (w : world) (file_path : string)
  : M (option DataFrame) :=
  (print (MsgProcessing (Py.basename file_path)) ;;;
   (* 1. Dynamically find the header row; [None] stands for the handler's
      [return None] *)
   located <-
     try_except_ValueError
       (header_row_index <- lift (find_header_row w file_path "BOROUGH") ;;
        ret (Some header_row_index))
       (fun e =>
          print (MsgCouldNotProcess file_path e) ;;;
          ret None) ;;
   match located with
   | None => ret None
   | Some header_row_index =>
       df <- lift (load_and_coerce w file_path header_row_index) ;;
       (* 6. Drop rows that are completely empty *)
       let df := dropna_all df in
       print (MsgFound (length (rows df))) ;;;
       ret (Some df)
   end)%py.

(** [[f(x) for x in xs]], evaluated from left to right. *)
Fixpoint list_comprehension {A B} (f : A -> M B) (xs : list A) : M (list B) :=
  match xs with
  | [] => ret []
  | x :: xs' =>
      (y <- f x ;;
       ys <- list_comprehension f xs' ;;
       ret (y :: ys))%py
  end.

(** [[df for df in all_dfs if df is not None]] *)
Definition not_none (all_dfs : list (option DataFrame)) : list DataFrame :=
  flat_map (fun df => match df with Some df => [df] | None => [] end) all_dfs.

(** [os.makedirs(path, exist_ok=True)] and [df.to_parquet(path)]. *)
Definition os_makedirs (w : world) (path : string) : M unit :=
  match makedirs w path with
  | Some e => raise e
  | None => ret tt
  end.

Definition to_parquet (w : world) (df : DataFrame) (path : string) : M unit :=
  match parquet w path df with
  | Some e => raise e
  | None =>
      fun st => (mkState (stdout st) (written st ++ [(path, df)]), Ok tt)
  end.

Definition raw_data_path (w : world) : string :=
  Py.path_join (Py.path_join (project_root w) "data") "raw".

Definition processed_data_path (w : world) : string :=
  Py.path_join (Py.path_join (project_root w) "data") "processed".

Definition output_file (w : world) : string :=
  Py.path_join (processed_data_path w) "nyc_sales_combined.parquet".

(** The paths [main] hands to [process_sales_file], given the names the raw
    directory lists. *)
Definition excel_files (w : world) (names : list string) : list string :=
  map (Py.path_join (raw_data_path w))
      (filter (fun f => Py.endswith f ".xlsx" && negb (Py.startswith f "~"))
              names).

Definition main (w : world) : M unit :=
  (os_makedirs w (processed_data_path w) ;;;
   names <- lift (listdir w (raw_data_path w)) ;;
   let all_files := excel_files w names in
   match all_files with
   | [] => print (MsgNoExcelFiles (raw_data_path w))
   | _ =>
       all_dfs <- list_comprehension (process_sales_file w) all_files ;;
       let all_dfs := not_none all_dfs in
       match all_dfs with
       | [] => print MsgNoData
       | _ =>
           print MsgCombining ;;;
           master_df <- lift (concat all_dfs) ;;
           print (MsgTotalRows (length (rows master_df))) ;;;
           master_df <- lift (column_astype_str master_df "tax_class_at_present") ;;
           master_df <- lift (column_astype_str master_df "apartment_number") ;;
           print (MsgSaving (output_file w)) ;;;
           to_parquet w master_df (output_file w) ;;;
           print MsgComplete ;;;
           print MsgNextSteps
       end
   end)%py.

(* ===================================================================== *)
(** ** Notions used to state the facts *)
(* ===================================================================== *)

(** Two labels that differ at most in the case of their letters and in the
    whitespace around and between their words. *)
Definition same_words_ignoring_case (a b : string) : Prop :=
  map Py.lower (Py.split a) = map Py.lower (Py.split b).

(** The name a raw header label ends with. *)
Definition canonical_name (raw : string) : string :=
  rename COLUMN_MAP (clean_name raw).

(** The rows at positions below 10 hold no cell that is the keyword. *)
Definition no_keyword_in_first_ten (keyword : string)
    (sheet : list (list value)) : Prop :=
  forall j row, j < 10 -> nth_error sheet j = Some row ->
                row_has_keyword keyword row = false.


(** [f] applied to each label and the cell under it. *)
Definition zip_with (f : string -> value -> value)
    (cols : list string) (cells : list value) : list value :=
  map (fun lv => f (fst lv) (snd lv)) (combine cols cells).

(** The table with [g] applied to every cell of column [j]. *)
Definition map_column (j : nat) (g : value -> value) (df : DataFrame)
  : DataFrame :=
  mkDataFrame (columns df)
    (map (fun r => (fst r, replace_at j (g (cell j r)) (snd r))) (rows df)).

(** Every row has one cell for each column. *)
Definition well_formed (df : DataFrame) : Prop :=
  Forall (fun r => length (snd r) = length (columns df)) (rows df).

(** The canonical fields that [cols] lacks, in canonical order. *)
Definition lacking (keys cols : list string) : list string :=
  filter (fun c => negb (mem c cols)) keys.

(** What the numeric conversion of the fields [done] does to a cell under
    the label [l]. *)
Definition numeric_cell (done : list string) (l : string) (v : value) : value :=
  if mem l done then to_numeric_value v else v.

(** The positions [df[keys]] selects, in order. *)
Definition selected (keys cols : list string) : list nat :=
  flat_map (fun k => positions k cols) keys.

(** The labels and the cells of a row after stages 4 and the projection,
    from the canonicalised labels [cols] of the source and the row's
    cells. *)
Definition projected_labels (cols : list string) : list string :=
  let cols4 := cols ++ lacking CANONICAL_COLUMNS cols in
  map (fun j => nth j cols4 "") (selected CANONICAL_COLUMNS cols4).

Definition projected_cells (cols : list string) (cells : list value)
  : list value :=
  let cols4 := cols ++ lacking CANONICAL_COLUMNS cols in
  let cells4 :=
    cells ++ repeat VNone (length (lacking CANONICAL_COLUMNS cols)) in
  map (fun j => nth j cells4 VNaN) (selected CANONICAL_COLUMNS cols4).

(** What stage 5 does to a cell under the label [l]; [series] is the
    [sale_date] Series handed to [to_datetime]. *)
Definition coerce_cell (series : list value) (l : string) (v : value) : value :=
  let v := numeric_cell numeric_cols l v in
  if String.eqb l "sale_date" then to_datetime_value series v else v.

(** No canonical field is the name of two columns. *)
Definition named_at_most_once (cols : list string) : Prop :=
  forall c, In c CANONICAL_COLUMNS -> length (positions c cols) <= 1.


(** What [process_sales_file] returns or raises; it depends on the file
    alone, not on what was printed before. *)
Definition outcome (w : world) (file_path : string)
  : result (option DataFrame) :=
  match find_header_row w file_path "BOROUGH" with
  | Ok i => rbind (load_and_coerce w file_path i)
                  (fun df => Ok (Some (dropna_all df)))
  | Raise (ValueError _) => Ok None
  | Raise e => Raise e
  end.

(** The results of a list of calls made in turn, up to the first that
    raises. *)
Fixpoint sequence {A} (rs : list (result A)) : result (list A) :=
  match rs with
  | [] => Ok []
  | r :: rs' => rbind r (fun a => rbind (sequence rs') (fun l => Ok (a :: l)))
  end.

(** What [df[col] = df[col].astype(str)] does to a cell under the label
    [l]. *)
Definition text_cell (col : string) (l : string) (v : value) : value :=
  if String.eqb l col then VStr (str v) else v.

(** The concatenation and the two text coercions of [main]. *)
Definition combined (dfs : list DataFrame) : result DataFrame :=
  rbind (concat dfs) (fun master_df =>
  rbind (column_astype_str master_df "tax_class_at_present") (fun master_df =>
  column_astype_str master_df "apartment_number")).

(** What a run of [main] returns or raises, and what it writes, whatever
    was printed and written before. *)
Definition run (w : world) : result unit * list (string * DataFrame) :=
  match makedirs w (processed_data_path w) with
  | Some e => (Raise e, [])
  | None =>
      match listdir w (raw_data_path w) with
      | Raise e => (Raise e, [])
      | Ok names =>
          match excel_files w names with
          | [] => (Ok tt, [])
          | all_files =>
              match sequence (map (outcome w) all_files) with
              | Raise e => (Raise e, [])
              | Ok all_dfs =>
                  match not_none all_dfs with
                  | [] => (Ok tt, [])
                  | all_dfs =>
                      match combined all_dfs with
                      | Raise e => (Raise e, [])
                      | Ok master_df =>
                          match parquet w (output_file w) master_df with
                          | Some e => (Raise e, [])
                          | None => (Ok tt, [(output_file w, master_df)])
                          end
                      end
                  end
              end
          end
      end
  end.

(** The fields [main] coerces to text, and what the two coercions do to a
    cell under the label [l]. *)
Definition text_fields : list string :=
  ["tax_class_at_present"; "apartment_number"].

Definition text_fields_cell (l : string) (v : value) : value :=
  if mem l text_fields then VStr (str v) else v.

(** The tables [main] goes on with, from what the calls of
    [process_sales_file] returned. *)
Definition collected (r : result (list (option DataFrame)))
  : result (list DataFrame) :=
  rbind r (fun all_dfs => Ok (not_none all_dfs)).

(** A file the run gets through: its header location fails with a
    [ValueError], or it loads as a table in which no canonical field is the
    name of two columns. *)
Definition file_is_processable (w : world) (file_path : string) : Prop :=
  (exists msg, find_header_row w file_path "BOROUGH" = Raise (ValueError msg))
  \/ (exists i source,
        find_header_row w file_path "BOROUGH" = Ok i
        /\ read_excel w file_path i = Ok source
        /\ named_at_most_once (map canonical_name (columns source))).



(** What a log tells: the files it announces with [Processing file: ...],
    and the row counts of its lines [-> Found n rows.]. *)
Definition announced (log : list message) : list string :=
  flat_map (fun m => match m with MsgProcessing b => [b] | _ => [] end) log.

Definition found_counts (log : list message) : list nat :=
  flat_map (fun m => match m with MsgFound n => [n] | _ => [] end) log.


End WithPandas.

(* ===================================================================== *)
(** ** Concrete data for the runs *)
(* ===================================================================== *)

(** A checkable form of [named_at_most_once]. *)
Definition named_at_most_once_b (cols : list string) : bool :=
  forallb (fun c => (length (positions c cols) <=? 1)%nat) CANONICAL_COLUMNS.

(** A library for the runs below: a header cell that holds text is named
    by its text, any other by its position (the header rows below hold
    distinct texts, so no name repeats).  The three other behaviours are
    left open or, in [reference], filled with stand-ins: an integer prints
    as its numeral, and no text or number is read as a date. *)
Definition plain_header_names (header : list value) : list string :=
  map (fun jc =>
         match snd jc with
         | VStr s => s
         | _ => ("Unnamed: " ++ Py.str_int (Z.of_nat (fst jc)))%string
         end)
      (combine (seq 0 (length header)) header).

Definition library (str_num : num -> string) (str_date : Z -> string)
    (parse_datetime : list value -> value -> option Z) : Pandas :=
  Build_Pandas str_num str_date plain_header_names parse_datetime.

Definition reference : Pandas :=
  library
    (fun n => match n with
              | Dec m e => if (e =? 0)%Z then Py.str_int m
                           else (Py.str_int m ++ "e" ++ Py.str_int e)%string
              | Inf false => "inf"
              | Inf true => "-inf"
              end)
    Py.str_int
    (fun _ _ => None).

(** A sheet with a title row, then the header, then three rows: a sale, a
    row whose price is the text [1,200], and a row whose only cell is the
    dash that stands for no price. *)
Definition bronx_sheet : list (list value) :=
  [ [VStr "Bronx Rolling Sales"; VNaN; VNaN];
    [VStr "BOROUGH"; VStr "Tax Class At Present"; VStr "SALE PRICE"];
    [VStr "2"; VStr "2A"; VNum (Dec 500000 0)];
    [VStr "2"; VNaN; VStr "1,200"];
    [VNaN; VNaN; VStr "-"] ].

(** A sheet whose header stands at row 10, after ten rows of notes. *)
Definition queens_sheet : list (list value) :=
  repeat [VStr "note"; VNaN] 10
  ++ [ [VStr "BOROUGH"; VStr "BLOCK"]; [VStr "4"; VNum (Dec 12 0)] ].

(** A sheet whose header stands at row 9. *)
Definition brooklyn_sheet : list (list value) :=
  repeat [VStr "note"; VNaN] 9
  ++ [ [VStr "note"; VStr " Borough "]; [VStr "x"; VStr "3"] ].

Definition bronx : string := "/repo/data/raw/2019_bronx.xlsx".
Definition queens : string := "/repo/data/raw/2019_queens.xlsx".
Definition brooklyn : string := "/repo/data/raw/2019_brooklyn.xlsx".

Definition example_excel (file_path : string) : result (list (list value)) :=
  if String.eqb file_path bronx then Ok bronx_sheet
  else if String.eqb file_path queens then Ok queens_sheet
  else if String.eqb file_path brooklyn then Ok brooklyn_sheet
  else Raise (OSError "No such file or directory").

(** The raw directory lists the two spreadsheets, a lock file and a text
    file; every call to the system succeeds. *)
Definition example_world : world :=
  mkWorld "/repo" (fun _ => None)
          (fun _ => Ok ["2019_bronx.xlsx"; "~$2019_bronx.xlsx"; "notes.txt";
                        "2019_queens.xlsx"])
          example_excel
          (fun _ _ => None).

(** The table of [bronx_sheet] as the reader returns it, as the processor
    returns it, and as [main] writes it. *)
Definition bronx_source : DataFrame :=
  mkDataFrame
    ["BOROUGH"; "Tax Class At Present"; "SALE PRICE"]
    [ (0, [VStr "2"; VStr "2A"; VNum (Dec 500000 0)]);
      (1, [VStr "2"; VNaN; VStr "1,200"]);
      (2, [VNaN; VNaN; VStr "-"]) ].

Definition bronx_table : DataFrame :=
  mkDataFrame CANONICAL_COLUMNS
    [ (0, [VStr "2"; VNone; VNone; VStr "2A"; VNaN; VNaN; VNone; VNone;
           VNone; VNone; VNaN; VNaN; VNaN; VNaN; VNaN; VNaN; VNaN; VNone;
           VNone; VNum (Dec 500000 0); VNaT]);
      (1, [VStr "2"; VNone; VNone; VNaN; VNaN; VNaN; VNone; VNone;
           VNone; VNone; VNaN; VNaN; VNaN; VNaN; VNaN; VNaN; VNaN; VNone;
           VNone; VNaN; VNaT]) ].

Definition bronx_written : DataFrame :=
  mkDataFrame CANONICAL_COLUMNS
    [ (0, [VStr "2"; VNone; VNone; VStr "2A"; VNaN; VNaN; VNone; VNone;
           VNone; VStr "None"; VNaN; VNaN; VNaN; VNaN; VNaN; VNaN; VNaN;
           VNone; VNone; VNum (Dec 500000 0); VNaT]);
      (1, [VStr "2"; VNone; VNone; VStr "nan"; VNaN; VNaN; VNone; VNone;
           VNone; VStr "None"; VNaN; VNaN; VNaN; VNaN; VNaN; VNaN; VNaN;
           VNone; VNone; VNaN; VNaT]) ].

Definition example_output_file : string :=
  "/repo/data/processed/nyc_sales_combined.parquet".

(** A sheet that names the tax class twice, under this year's label and
    under that of the 18/19 roll. *)
Definition manhattan_sheet : list (list value) :=
  [ [VStr "BOROUGH"; VStr "TAX CLASS AT PRESENT";
     VStr "TAX CLASS AS OF FINAL ROLL 18/19"];
    [VStr "1"; VStr "2A"; VStr "2"] ].

Definition manhattan : string := "/repo/data/raw/2019_manhattan.xlsx".

Definition world_with_both_tax_class_labels : world :=
  mkWorld "/repo" (fun _ => None) (fun _ => Ok ["2019_manhattan.xlsx"])
          (fun _ => Ok manhattan_sheet) (fun _ _ => None).

Definition manhattan_table : DataFrame :=
  mkDataFrame
    [ "borough"; "neighborhood"; "building_class_category";
      "tax_class_at_present"; "tax_class_at_present"; "block"; "lot";
      "easement"; "building_class_at_present"; "address"; "apartment_number";
      "zip_code"; "residential_units"; "commercial_units"; "total_units";
      "land_square_feet"; "gross_square_feet"; "year_built";
      "tax_class_at_time_of_sale"; "building_class_at_time_of_sale";
      "sale_price"; "sale_date" ]
    [ (0, [VStr "1"; VNone; VNone; VStr "2A"; VStr "2"; VNaN; VNaN; VNone;
           VNone; VNone; VNone; VNaN; VNaN; VNaN; VNaN; VNaN; VNaN; VNaN;
           VNone; VNone; VNaN; VNaT]) ].


(** A sheet that names the sale price twice, in two spellings. *)
Definition staten_island_sheet : list (list value) :=
  [ [VStr "BOROUGH"; VStr "SALE PRICE"; VStr "Sale  Price"];
    [VStr "5"; VNum (Dec 500000 0); VNum (Dec 450000 0)] ].

Definition staten_island : string := "/repo/data/raw/2019_staten_island.xlsx".

Definition world_with_two_price_columns : world :=
  mkWorld "/repo" (fun _ => None) (fun _ => Ok ["2019_staten_island.xlsx"])
          (fun _ => Ok staten_island_sheet) (fun _ _ => None).

Definition staten_island_source : DataFrame :=
  mkDataFrame ["BOROUGH"; "SALE PRICE"; "Sale  Price"]
              [ (0, [VStr "5"; VNum (Dec 500000 0); VNum (Dec 450000 0)]) ].

(** A raw directory that lists a text file and the lock file of an open
    spreadsheet, and no spreadsheet. *)
Definition world_without_spreadsheets : world :=
  mkWorld "/repo" (fun _ => None)
          (fun _ => Ok ["notes.txt"; "~$2019_bronx.xlsx"])
          example_excel (fun _ _ => None).


Section Facts.

Context {pandas : Pandas}.

(* ===================================================================== *)
(** ** Facts: the alias table and the canonicalizer *)
(* ===================================================================== *)

Lemma clean_name_words (raw : string) :
  clean_name raw = Py.join_space (map Py.lower (Py.split raw)).
Proof.
  unfold clean_name. now rewrite Py.strip_re_sub_ws, Py.lower_join_space.
Qed.

Lemma COLUMN_MAP_keys_distinct : NoDup (map fst COLUMN_MAP).
Proof.
  repeat (constructor;
          [cbn; intros H;
           repeat match goal with
                  | H : _ \/ _ |- _ => destruct H as [H | H]; [discriminate H |]
                  end; exact H |]).
  constructor.
Qed.

Lemma COLUMN_MAP_keys_clean :
  Forall (fun kv => clean_name (fst kv) = fst kv) COLUMN_MAP.
Proof. repeat constructor. Qed.

Lemma COLUMN_MAP_get :
  Forall (fun kv => dict_get COLUMN_MAP (fst kv) = Some (snd kv)) COLUMN_MAP.
Proof. repeat constructor. Qed.

(** C2: a header label that has the words of an alias, in whatever case and
    with whatever whitespace around and between them, is given the alias's
    canonical name; the cleaning is whitespace collapse, strip and lower
    case, in this order, and leaves the label's words in lower case with one
    space between them; a label whose cleaned form is no alias keeps the
    cleaned form; and this is what [clean_column_names] does to every label
    of a table. *)
Theorem aliases_map_to_canonical_names (raw : string) :
  (forall alias name,
      In (alias, name) COLUMN_MAP ->
      same_words_ignoring_case raw alias ->
      canonical_name raw = name)
  /\ clean_name raw = Py.lower (Py.strip (Py.re_sub_ws raw))
  /\ clean_name raw = Py.join_space (map Py.lower (Py.split raw))
  /\ (dict_get COLUMN_MAP (clean_name raw) = None ->
      canonical_name raw = clean_name raw)
  /\ (forall df,
        columns (clean_column_names df COLUMN_MAP)
        = map canonical_name (columns df))
  /\ canonical_name "Tax Class At Present" = "tax_class_at_present"
  /\ canonical_name "tax class as of final roll 18/19" = "tax_class_at_present".
Proof.
  split; [| split; [| split; [| split; [| split; [| split]]]]];
    try reflexivity.
  - intros alias name Hin Hsame.
    unfold canonical_name, rename.
    assert (E : clean_name raw = alias).
    { rewrite clean_name_words, Hsame, <- clean_name_words.
      exact (proj1 (Forall_forall _ _) COLUMN_MAP_keys_clean _ Hin). }
    rewrite E.
    pose proof (proj1 (Forall_forall _ _) COLUMN_MAP_get _ Hin) as G.
    cbn [fst snd] in G. now rewrite G.
  - apply clean_name_words.
  - intros E. unfold canonical_name, rename. now rewrite E.
  - intros df. unfold clean_column_names; cbn [columns].
    now rewrite map_map.
Qed.

(* ===================================================================== *)
(** ** Facts: the header locator *)
(* ===================================================================== *)

Lemma row_has_keyword_iff (keyword : string) (row : list value) :
  row_has_keyword keyword row = true
  <-> exists c, In c row /\ Py.upper (Py.strip (str c)) = keyword.
Proof.
  unfold row_has_keyword. rewrite existsb_exists.
  split; intros [c [Hc E]]; exists c; split; auto; now apply String.eqb_eq.
Qed.

Lemma first_matching_row_some keyword (rows : list (list value)) :
  forall i n,
    first_matching_row keyword i rows = Some n
    <-> exists k row,
          n = i + k
          /\ nth_error rows k = Some row
          /\ row_has_keyword keyword row = true
          /\ (forall j row', j < k -> nth_error rows j = Some row' ->
                             row_has_keyword keyword row' = false).
Proof.
  induction rows as [| r rows IH]; intros i n; cbn [first_matching_row].
  - split; [discriminate |].
    intros (k & row & _ & H & _). destruct k; discriminate H.
  - destruct (row_has_keyword keyword r) eqn:E.
    + split.
      * intros [= <-]. exists 0, r.
        split; [lia |]. split; [reflexivity |]. split; [exact E |].
        intros j row' Hj. lia.
      * intros (k & row & -> & Hk & Hrow & Hbefore).
        destruct k as [| k]; [f_equal; lia |].
        specialize (Hbefore 0 r ltac:(lia) eq_refl). congruence.
    + rewrite IH. split.
      * intros (k & row & -> & Hk & Hrow & Hbefore).
        exists (S k), row.
        split; [lia |]. split; [exact Hk |]. split; [exact Hrow |].
        intros [| j] row' Hj Hn; cbn in Hn; [congruence |].
        apply (Hbefore j); [lia | exact Hn].
      * intros (k & row & -> & Hk & Hrow & Hbefore).
        destruct k as [| k]; cbn in Hk; [congruence |].
        exists k, row.
        split; [lia |]. split; [exact Hk |]. split; [exact Hrow |].
        intros j row' Hj Hn. apply (Hbefore (S j)); [lia | exact Hn].
Qed.

Lemma first_matching_row_none keyword (rows : list (list value)) :
  forall i,
    first_matching_row keyword i rows = None
    <-> forall row, In row rows -> row_has_keyword keyword row = false.
Proof.
  induction rows as [| r rows IH]; intros i; cbn [first_matching_row].
  - split; [intros _ row [] | reflexivity].
  - destruct (row_has_keyword keyword r) eqn:E.
    + split; [discriminate |]. intros H.
      specialize (H r (or_introl eq_refl)). congruence.
    + rewrite IH. split.
      * intros H row [<- | Hin]; auto.
      * intros H row Hin. apply H. now right.
Qed.

Lemma nth_error_firstn_some {A} (n k : nat) (l : list A) (x : A) :
  nth_error (firstn n l) k = Some x <-> k < n /\ nth_error l k = Some x.
Proof.
  revert k l; induction n as [| n IH]; intros k l.
  - cbn. split; [destruct k; discriminate | lia].
  - destruct l as [| y l]; cbn [firstn].
    + split; [destruct k; discriminate | intros [_ H]; destruct k; discriminate H].
    + destruct k as [| k]; cbn [nth_error].
      * split; [intros H; split; [lia | exact H] | tauto].
      * rewrite IH. split; intros [H1 H2]; split; auto; lia.
Qed.

(** C3: on a source that can be read, the header locator returns [i] exactly
    when [i] is below 10, row [i] has a cell whose printed, stripped,
    upper-cased text is the keyword, and no earlier row has one; it raises
    the header-not-found [ValueError], and nothing else, exactly when none
    of the rows 0 to 9 has such a cell, whatever the rows from 10 on hold. *)
Theorem header_locator_scans_first_ten_rows
    (w : world) (file_path keyword : string) (sheet : list (list value)) :
  excel w file_path = Ok sheet ->
  (forall i,
      find_header_row w file_path keyword = Ok i
      <-> i < 10
          /\ (exists row, nth_error sheet i = Some row
                          /\ row_has_keyword keyword row = true)
          /\ (forall j row, j < i -> nth_error sheet j = Some row ->
                            row_has_keyword keyword row = false))
  /\ (forall e,
        find_header_row w file_path keyword = Raise e
        <-> e = header_not_found keyword file_path
            /\ no_keyword_in_first_ten keyword sheet)
  /\ (forall row,
        row_has_keyword keyword row = true
        <-> exists c, In c row /\ Py.upper (Py.strip (str c)) = keyword).
Proof.
  intros Hread.
  unfold find_header_row, read_excel_raw. rewrite Hread. cbn [rbind].
  split; [| split].
  - intros i.
    destruct (first_matching_row keyword 0 (firstn 10 sheet)) as [n |] eqn:F.
    + apply first_matching_row_some in F.
      destruct F as (k & row & -> & Hk & Hrow & Hbefore). cbn [Nat.add].
      apply nth_error_firstn_some in Hk. destruct Hk as [Hk10 Hk].
      split.
      * intros [= <-]. split; [exact Hk10 |]. split; [now exists row |].
        intros j row' Hj Hn. apply (Hbefore j); [exact Hj |].
        apply nth_error_firstn_some. split; [lia | exact Hn].
      * intros (Hi & (row' & Hn' & Hrow') & Hbefore'). f_equal.
        destruct (Nat.lt_trichotomy k i) as [L | [E | L]]; [| exact E |].
        -- specialize (Hbefore' k row L Hk). congruence.
        -- assert (Hrow'' : row_has_keyword keyword row' = false).
           { apply (Hbefore i); [exact L |].
             apply nth_error_firstn_some. split; [lia | exact Hn']. }
           congruence.
    + split; [discriminate |].
      intros (Hi & (row & Hn & Hrow) & _). exfalso.
      rewrite first_matching_row_none in F.
      assert (Hin : In row (firstn 10 sheet)).
      { apply (nth_error_In _ i). apply nth_error_firstn_some. now split. }
      specialize (F row Hin). congruence.
  - intros e.
    destruct (first_matching_row keyword 0 (firstn 10 sheet)) as [n |] eqn:F.
    + split; [discriminate |]. intros [_ Hnone]. exfalso.
      apply first_matching_row_some in F.
      destruct F as (k & row & _ & Hk & Hrow & _).
      apply nth_error_firstn_some in Hk. destruct Hk as [Hk10 Hk].
      specialize (Hnone k row Hk10 Hk). congruence.
    + rewrite first_matching_row_none in F. split.
      * intros [= <-]. split; [reflexivity |].
        intros j row Hj Hn. apply F. apply (nth_error_In _ j).
        apply nth_error_firstn_some. now split.
      * intros [-> _]. reflexivity.
  - intros row. apply row_has_keyword_iff.
Qed.

(* ===================================================================== *)
(** ** Facts: numeric and date coercion *)
(* ===================================================================== *)






(* ===================================================================== *)
(** ** Facts: labels, positions and columns *)
(* ===================================================================== *)

Lemma mem_In (x : string) (xs : list string) : mem x xs = true <-> In x xs.
Proof.
  unfold mem. rewrite existsb_exists. split.
  - intros [y [Hy E]]. apply String.eqb_eq in E. now subst.
  - intros H. exists x. split; [exact H | apply String.eqb_refl].
Qed.

Lemma mem_false (x : string) (xs : list string) :
  mem x xs = false <-> ~ In x xs.
Proof.
  rewrite <- mem_In. destruct (mem x xs); split; congruence.
Qed.

Lemma positions_from_ge (c : string) (cols : list string) :
  forall k j, In j (positions_from k c cols) -> k <= j.
Proof.
  induction cols as [| l cols IH]; intros k j; cbn [positions_from]; [intros [] |].
  destruct (String.eqb l c).
  - intros [<- | H]; [lia | apply IH in H; lia].
  - intros H. apply IH in H. lia.
Qed.

Lemma positions_from_nth (c : string) (cols : list string) :
  forall k j, In j (positions_from k c cols) ->
              nth_error cols (j - k) = Some c.
Proof.
  induction cols as [| l cols IH]; intros k j; cbn [positions_from]; [intros [] |].
  destruct (String.eqb l c) eqn:E.
  - intros [<- | H].
    + rewrite Nat.sub_diag. cbn. apply String.eqb_eq in E. now subst.
    + pose proof (positions_from_ge _ _ _ _ H) as G.
      replace (j - k) with (S (j - S k)) by lia. cbn. now apply IH.
  - intros H. pose proof (positions_from_ge _ _ _ _ H) as G.
    replace (j - k) with (S (j - S k)) by lia. cbn. now apply IH.
Qed.

Lemma positions_from_nil (c : string) (cols : list string) (k : nat) :
  positions_from k c cols = [] <-> ~ In c cols.
Proof.
  revert k; induction cols as [| l cols IH]; intros k; cbn [positions_from].
  - split; [intros _ [] | reflexivity].
  - destruct (String.eqb l c) eqn:E.
    + apply String.eqb_eq in E. subst. split; [discriminate |].
      intros H. exfalso. apply H. now left.
    + apply String.eqb_neq in E. rewrite IH. cbn. tauto.
Qed.

Lemma positions_from_app (c : string) (a b : list string) (k : nat) :
  positions_from k c (a ++ b)
  = positions_from k c a ++ positions_from (k + length a) c b.
Proof.
  revert k; induction a as [| l a IH]; intros k; cbn [positions_from app length].
  - now rewrite Nat.add_0_r.
  - rewrite IH. replace (S k + length a) with (k + S (length a)) by lia.
    now destruct (String.eqb l c).
Qed.

Lemma positions_from_NoDup (c : string) (cols : list string) (k : nat) :
  NoDup cols -> In c cols -> exists j, positions_from k c cols = [j].
Proof.
  revert k; induction cols as [| l cols IH]; intros k Hnd Hin; [destruct Hin |].
  inversion Hnd as [| ? ? Hl Hnd']; subst. cbn [positions_from].
  destruct (String.eqb l c) eqn:E.
  - apply String.eqb_eq in E. subst. exists k.
    now rewrite (proj2 (positions_from_nil c cols (S k)) Hl).
  - apply String.eqb_neq in E. destruct Hin as [-> | Hin]; [congruence |].
    now apply IH.
Qed.

Lemma positions_mem (c : string) (cols : list string) :
  mem c cols = false -> positions c cols = [].
Proof. intros H. apply positions_from_nil. now apply mem_false. Qed.

Lemma map_combine_map {A B C} (f : A * B -> C) (h : A -> B) (l : list A) :
  map f (combine l (map h l)) = map (fun a => f (a, h a)) l.
Proof. induction l as [| a l IH]; cbn; [reflexivity | now rewrite IH]. Qed.

Lemma map_combine_repeat {A B C} (f : A * B -> C) (x : B) (l : list A) :
  map f (combine l (repeat x (length l))) = map (fun a => f (a, x)) l.
Proof. induction l as [| a l IH]; cbn; [reflexivity | now rewrite IH]. Qed.

Lemma map_fst_combine {A B} (l : list A) (l' : list B) :
  length l = length l' -> map fst (combine l l') = l.
Proof.
  revert l'; induction l as [| a l IH]; intros [| b l'] H; cbn in *;
    try reflexivity; try discriminate.
  f_equal. apply IH. lia.
Qed.

Lemma map_snd_combine {A B} (l : list A) (l' : list B) :
  length l = length l' -> map snd (combine l l') = l'.
Proof.
  revert l'; induction l as [| a l IH]; intros [| b l'] H; cbn in *;
    try reflexivity; try discriminate.
  f_equal. apply IH. lia.
Qed.

Lemma replace_at_length (j : nat) (v : value) (cells : list value) :
  length (replace_at j v cells) = length cells.
Proof.
  revert j; induction cells as [| h t IH]; intros [| j]; cbn; auto.
Qed.

Lemma zip_with_ext (f g : string -> value -> value) cols cells :
  (forall l v, In l cols -> f l v = g l v) ->
  zip_with f cols cells = zip_with g cols cells.
Proof.
  unfold zip_with. revert cells; induction cols as [| l cols IH];
    intros cells H; [reflexivity |].
  destruct cells as [| v cells]; [reflexivity |]. cbn.
  rewrite H by now left. f_equal. apply IH. intros; apply H. now right.
Qed.

Lemma zip_with_id cols cells :
  length cells = length cols -> zip_with (fun _ v => v) cols cells = cells.
Proof.
  unfold zip_with. revert cells; induction cols as [| l cols IH];
    intros [| v cells] H; cbn in *; try reflexivity; try discriminate.
  f_equal. apply IH. lia.
Qed.

Lemma zip_with_length f cols cells :
  length cells = length cols -> length (zip_with f cols cells) = length cols.
Proof.
  intros H. unfold zip_with.
  now rewrite length_map, length_combine, H, Nat.min_id.
Qed.

Lemma zip_with_zip_with f g cols cells :
  zip_with f cols (zip_with g cols cells)
  = zip_with (fun l v => f l (g l v)) cols cells.
Proof.
  unfold zip_with. revert cells; induction cols as [| l cols IH];
    intros [| v cells]; cbn; try reflexivity.
  now rewrite IH.
Qed.

Lemma zip_with_nth f cols cells j :
  j < length cols -> length cells = length cols ->
  nth j (zip_with f cols cells) VNaN = f (nth j cols "") (nth j cells VNaN).
Proof.
  unfold zip_with. revert cells j; induction cols as [| l cols IH];
    intros [| v cells] [| j] Hj H; cbn in *; try lia; try reflexivity.
  apply IH; lia.
Qed.

(** Replacing the one cell under the label [c] is applying [g] under that
    label. *)
Lemma zip_with_cons f l cols v cells :
  zip_with f (l :: cols) (v :: cells) = f l v :: zip_with f cols cells.
Proof. reflexivity. Qed.

Lemma zip_with_replace_at (h : string -> value -> value) (g : value -> value)
    (c : string) (cols : list string) :
  forall cells k j,
    positions_from k c cols = [j] ->
    length cells = length cols ->
    zip_with h cols
      (replace_at (j - k) (g (nth (j - k) cells VNaN)) cells)
    = zip_with (fun l v => if String.eqb l c then h l (g v) else h l v)
               cols cells.
Proof.
  induction cols as [| l cols IH]; intros cells k j; cbn [positions_from];
    [discriminate |].
  destruct cells as [| v cells]; [discriminate |]. intros E Hlen.
  destruct (String.eqb l c) eqn:El.
  - injection E as -> E. rewrite Nat.sub_diag. cbn [replace_at nth].
    rewrite !zip_with_cons, El. f_equal.
    apply zip_with_ext. intros l' v' Hl'.
    apply positions_from_nil in E.
    destruct (String.eqb l' c) eqn:E'; [| reflexivity].
    apply String.eqb_eq in E'. subst. contradiction.
  - assert (G : S k <= j).
    { apply (positions_from_ge c cols). rewrite E. now left. }
    replace (j - k) with (S (j - S k)) by lia. cbn [replace_at nth].
    rewrite !zip_with_cons, El. f_equal.
    apply IH; [exact E | cbn in Hlen; lia].
Qed.

(* ===================================================================== *)
(** ** Facts: the stages of the per-file pipeline *)
(* ===================================================================== *)

Lemma setitem_new_column (df : DataFrame) (col : string) (v : value) :
  mem col (columns df) = false ->
  setitem df col (repeat v (length (rows df)))
  = Ok (mkDataFrame (columns df ++ [col])
                    (map (fun r => (fst r, snd r ++ [v])) (rows df))).
Proof.
  intros H. unfold setitem.
  rewrite repeat_length, Nat.eqb_refl, (positions_mem _ _ H). cbn [negb].
  now rewrite (map_combine_repeat
                 (fun rv => (fst (fst rv), snd (fst rv) ++ [snd rv]))).
Qed.

(** Replacing a column by a function of its entries. *)
Lemma setitem_column (df : DataFrame) (col : string) (j : nat)
    (g : value -> value) :
  positions col (columns df) = [j] ->
  setitem df col (map g (column j df)) = Ok (map_column j g df).
Proof.
  intros H. unfold setitem, column, map_column.
  rewrite !length_map, Nat.eqb_refl, H, map_map. cbn [negb fold_left].
  now rewrite (map_combine_map
                 (fun rv => (fst (fst rv), replace_at j (snd rv) (snd (fst rv))))).
Qed.

Lemma coerce_numeric_column_eq (df : DataFrame) (col : string) :
  coerce_numeric_column df col
  = match positions col (columns df) with
    | [] => Raise (KeyError col)
    | [j] => Ok (map_column j to_numeric_value df)
    | _ => Raise (TypeError "arg must be a list, tuple, 1-d array, or Series")
    end.
Proof.
  unfold coerce_numeric_column, getitem.
  destruct (positions col (columns df)) as [| j [| j' js]] eqn:E;
    cbn [rbind to_numeric]; try reflexivity.
  now apply setitem_column.
Qed.

Lemma coerce_date_column_eq (df : DataFrame) (col : string) :
  coerce_date_column df col
  = match positions col (columns df) with
    | [] => Raise (KeyError col)
    | [j] => Ok (map_column j (to_datetime_value (column j df)) df)
    | _ => Raise (ValueError "cannot assemble with duplicate keys")
    end.
Proof.
  unfold coerce_date_column, getitem.
  destruct (positions col (columns df)) as [| j [| j' js]] eqn:E;
    cbn [rbind to_datetime]; try reflexivity.
  now apply setitem_column.
Qed.


(** Stage 4: the lacking fields are added at the end, [None] in every row;
    it never raises. *)
Lemma ensure_columns (keys : list string) :
  NoDup keys ->
  forall df,
    for_each keys ensure_column df
    = Ok (mkDataFrame
            (columns df ++ lacking keys (columns df))
            (map (fun r => (fst r,
                            snd r ++ repeat VNone
                                       (length (lacking keys (columns df)))))
                 (rows df))).
Proof.
  induction keys as [| c keys IH]; intros Hnd [cols rs]; cbn [for_each].
  - cbn. rewrite List.app_nil_r. f_equal. f_equal.
    rewrite <- (map_id rs) at 1. apply map_ext. intros [i cells]. cbn.
    now rewrite List.app_nil_r.
  - inversion Hnd as [| ? ? Hc Hnd']; subst.
    unfold ensure_column at 1. cbn [columns rows lacking filter].
    destruct (mem c cols) eqn:E; cbn [negb rbind].
    + now rewrite (IH Hnd').
    + pose proof (setitem_new_column (mkDataFrame cols rs) c VNone E) as S.
      cbn [columns rows] in S. rewrite S.
      cbn [rbind]. rewrite (IH Hnd'). cbn [columns rows].
      assert (L : lacking keys (cols ++ [c]) = lacking keys cols).
      { apply filter_ext_in. intros c' Hc'. f_equal. unfold mem.
        rewrite existsb_app. cbn. rewrite orb_false_r.
        destruct (String.eqb c' c) eqn:E'; [| now rewrite orb_false_r].
        apply String.eqb_eq in E'. subst. contradiction. }
      rewrite L, <- List.app_assoc. cbn [app length]. f_equal. f_equal.
      rewrite map_map. apply map_ext. intros [i cells]. cbn [fst snd].
      now rewrite <- List.app_assoc.
Qed.

Lemma to_numeric_value_idempotent (v : value) :
  to_numeric_value (to_numeric_value v) = to_numeric_value v.
Proof. destruct v as [| | | s | n | ns]; cbn; auto. now destruct (floatify s). Qed.

Lemma map_column_well_formed j g df :
  well_formed df -> well_formed (map_column j g df).
Proof.
  unfold well_formed, map_column; cbn [columns rows]. intros H.
  apply Forall_map. eapply Forall_impl; [| exact H].
  intros r Hr. cbn. now rewrite replace_at_length.
Qed.

Lemma coerce_numeric_columns (cols : list string) :
  forall df df',
    well_formed df ->
    for_each cols coerce_numeric_column df = Ok df' ->
    columns df' = columns df
    /\ rows df'
       = map (fun r => (fst r, zip_with (numeric_cell cols) (columns df) (snd r)))
             (rows df).
Proof.
  induction cols as [| c cols IH]; intros df df' Hwf; cbn [for_each].
  - intros [= <-]. split; [reflexivity |].
    rewrite <- (map_id (rows df)) at 1. apply map_ext_in. intros [i cells] Hin.
    cbn [fst snd]. f_equal. symmetry.
    apply (proj1 (Forall_forall _ _) Hwf) in Hin. cbn in Hin.
    rewrite (zip_with_ext _ (fun _ v => v)) by reflexivity.
    now apply zip_with_id.
  - rewrite coerce_numeric_column_eq.
    destruct (positions c (columns df)) as [| j [| j' js]] eqn:E;
      cbn [rbind]; try discriminate.
    intros H. apply IH in H; [| now apply map_column_well_formed].
    destruct H as [Hc Hr]. split; [exact Hc |].
    rewrite Hr. unfold map_column; cbn [columns rows]. rewrite map_map.
    apply map_ext_in. intros [i cells] Hin. cbn [fst snd]. f_equal.
    apply (proj1 (Forall_forall _ _) Hwf) in Hin. cbn in Hin.
    unfold cell; cbn [snd].
    pose proof (zip_with_replace_at (numeric_cell cols) to_numeric_value c
                  (columns df) cells 0 j E Hin) as Z.
    rewrite Nat.sub_0_r in Z. rewrite Z.
    apply zip_with_ext. intros l v _. unfold numeric_cell, mem.
    cbn [existsb]. destruct (String.eqb l c); cbn [orb]; [| reflexivity].
    destruct (existsb (String.eqb l) cols); [| reflexivity].
    apply to_numeric_value_idempotent.
Qed.

(** Stage 5 never raises when each field to convert labels one column. *)
Lemma coerce_numeric_columns_ok (cols : list string) :
  forall df,
    (forall c, In c cols -> exists j, positions c (columns df) = [j]) ->
    exists df', for_each cols coerce_numeric_column df = Ok df'.
Proof.
  induction cols as [| c cols IH]; intros df H; cbn [for_each]; [eauto |].
  rewrite coerce_numeric_column_eq.
  destruct (H c (or_introl eq_refl)) as [j ->]. cbn [rbind].
  apply IH. intros c' Hc'. unfold map_column; cbn [columns].
  apply H. now right.
Qed.

Lemma getitem_list_ok (df : DataFrame) (keys : list string) :
  (forall k, In k keys -> In k (columns df)) ->
  getitem_list df keys
  = Ok (mkDataFrame
          (map (fun j => nth j (columns df) "") (selected keys (columns df)))
          (map (fun r => (fst r,
                          map (fun j => cell j r) (selected keys (columns df))))
               (rows df))).
Proof.
  intros H. unfold getitem_list.
  destruct (find _ keys) as [k |] eqn:F; [| reflexivity].
  apply find_some in F. destruct F as [Hk F].
  apply negb_true_iff, mem_false in F. exfalso. apply F, H, Hk.
Qed.

Lemma CANONICAL_COLUMNS_distinct : NoDup CANONICAL_COLUMNS.
Proof.
  repeat (constructor;
          [cbn; intros H;
           repeat match goal with
                  | H : _ \/ _ |- _ => destruct H as [H | H]; [discriminate H |]
                  end; exact H |]).
  constructor.
Qed.

(** The table of steps 2 to 5, whenever they return one: the projected
    labels, and in each row of the source, in order and under its index,
    the projected cells, each converted as its label asks. *)
Lemma load_and_coerce_spec (w : world) (file_path : string) (i : nat)
    (source df : DataFrame) :
  read_excel w file_path i = Ok source ->
  load_and_coerce w file_path i = Ok df ->
  let cols := map canonical_name (columns source) in
  columns df = projected_labels cols
  /\ exists series,
      rows df
      = map (fun r => (fst r,
                       zip_with (coerce_cell series) (projected_labels cols)
                                (projected_cells cols (snd r))))
            (rows source).
Proof.
  intros Hread. unfold load_and_coerce. rewrite Hread. cbn [rbind].
  rewrite (ensure_columns _ CANONICAL_COLUMNS_distinct). cbn [rbind].
  unfold clean_column_names. cbn [columns rows]. rewrite map_map.
  change (fun x => rename COLUMN_MAP (clean_name x)) with canonical_name.
  set (cols := map canonical_name (columns source)).
  rewrite getitem_list_ok; cbn [columns rows rbind].
  2:{ intros k Hk. apply in_or_app.
      destruct (mem k cols) eqn:E; [left; now apply mem_In |].
      right. apply filter_In. split; [exact Hk | now rewrite E]. }
  rewrite map_map. cbn [fst snd].
  match goal with
  | |- rbind (for_each _ _ ?d) _ = _ -> _ => set (df5 := d)
  end.
  assert (Hwf : well_formed df5).
  { unfold well_formed, df5; cbn [columns rows]. apply Forall_map.
    apply Forall_forall. intros r _. cbn [snd]. now rewrite !length_map. }
  destruct (for_each numeric_cols coerce_numeric_column df5) as [df6 | e]
    eqn:N; cbn [rbind]; [| discriminate].
  destruct (coerce_numeric_columns _ _ _ Hwf N) as [Hc6 Hr6].
  rewrite coerce_date_column_eq, Hc6.
  destruct (positions "sale_date" (columns df5)) as [| j [| j' js]] eqn:P;
    try discriminate.
  intros [= <-].
  unfold map_column; cbn [columns rows]. split; [exact Hc6 |].
  exists (column j df6). rewrite Hr6, map_map. unfold df5; cbn [columns rows].
  rewrite map_map. apply map_ext. intros [n cells]. cbn [fst snd]. f_equal.
  unfold cell; cbn [snd].
  fold (projected_labels cols). 
  change (map (fun j0 => nth j0 (cells ++ repeat VNone
                                   (length (lacking CANONICAL_COLUMNS cols))) VNaN)
              (selected CANONICAL_COLUMNS (cols ++ lacking CANONICAL_COLUMNS cols)))
    with (projected_cells cols cells).
  set (cells6 := zip_with (numeric_cell numeric_cols) (projected_labels cols)
                          (projected_cells cols cells)).
  assert (L6 : length cells6 = length (projected_labels cols)).
  { apply zip_with_length. unfold projected_cells, projected_labels.
    now rewrite !length_map. }
  pose proof (zip_with_replace_at (fun _ v => v)
                (to_datetime_value (column j df6)) "sale_date"
                (projected_labels cols) cells6 0 j P L6) as Z.
  rewrite Nat.sub_0_r, zip_with_id in Z
    by (now rewrite replace_at_length).
  rewrite Z. unfold cells6. rewrite zip_with_zip_with. reflexivity.
Qed.

(** Steps 2 to 5 return a table when each field to convert labels one
    column of the projected table. *)
Lemma load_and_coerce_ok (w : world) (file_path : string) (i : nat)
    (source : DataFrame) :
  read_excel w file_path i = Ok source ->
  (forall c, In c (numeric_cols ++ ["sale_date"]) ->
             exists j, positions c (projected_labels
                                      (map canonical_name (columns source)))
                       = [j]) ->
  exists df, load_and_coerce w file_path i = Ok df.
Proof.
  intros Hread H. unfold load_and_coerce. rewrite Hread. cbn [rbind].
  rewrite (ensure_columns _ CANONICAL_COLUMNS_distinct). cbn [rbind].
  unfold clean_column_names. cbn [columns rows]. rewrite map_map.
  change (fun x => rename COLUMN_MAP (clean_name x)) with canonical_name.
  set (cols := map canonical_name (columns source)) in *.
  rewrite getitem_list_ok; cbn [columns rows rbind].
  2:{ intros k Hk. apply in_or_app.
      destruct (mem k cols) eqn:E; [left; now apply mem_In |].
      right. apply filter_In. split; [exact Hk | now rewrite E]. }
  match goal with
  | |- exists _, rbind (for_each _ _ ?d) _ = _ => set (df5 := d)
  end.
  assert (Hwf : well_formed df5).
  { unfold well_formed, df5; cbn [columns rows]. apply Forall_map.
    apply Forall_forall. intros r _. cbn [snd]. now rewrite !length_map. }
  destruct (coerce_numeric_columns_ok numeric_cols df5) as [df6 N].
  { intros c Hc. apply H. apply in_or_app. now left. }
  rewrite N. cbn [rbind].
  destruct (coerce_numeric_columns _ _ _ Hwf N) as [Hc6 _].
  rewrite coerce_date_column_eq, Hc6.
  change (columns df5) with (projected_labels cols).
  destruct (H "sale_date") as [j ->]; [apply in_or_app; right; now left |].
  eauto.
Qed.

Lemma canonical_position (cols : list string) :
  named_at_most_once cols ->
  forall k, In k CANONICAL_COLUMNS ->
            exists p, positions k (cols ++ lacking CANONICAL_COLUMNS cols) = [p].
Proof.
  intros U k Hk. unfold positions. rewrite positions_from_app. cbn [Nat.add].
  destruct (mem k cols) eqn:E.
  - assert (L : positions_from (length cols) k (lacking CANONICAL_COLUMNS cols) = []).
    { apply positions_from_nil. unfold lacking. rewrite filter_In.
      intros [_ H]. now rewrite E in H. }
    rewrite L, List.app_nil_r. specialize (U k Hk). unfold positions in U.
    destruct (positions_from 0 k cols) as [| p [| p' ps]] eqn:P.
    + apply positions_from_nil in P. apply mem_In in E. contradiction.
    + now exists p.
    + cbn in U. lia.
  - pose proof (positions_mem _ _ E) as P0. unfold positions in P0.
    rewrite P0. cbn [app].
    apply positions_from_NoDup.
    + apply NoDup_filter, CANONICAL_COLUMNS_distinct.
    + apply filter_In. split; [exact Hk | now rewrite E].
Qed.

Lemma selected_labels (keys cols : list string) :
  (forall k, In k keys -> exists p, positions k cols = [p]) ->
  map (fun j => nth j cols "") (selected keys cols) = keys.
Proof.
  induction keys as [| k keys IH]; intros H; [reflexivity |].
  unfold selected in *. cbn [flat_map].
  destruct (H k (or_introl eq_refl)) as [p Hp]. rewrite Hp. cbn [app map].
  f_equal.
  - assert (G : nth_error cols (p - 0) = Some k).
    { apply positions_from_nth. fold (positions k cols). rewrite Hp. now left. }
    rewrite Nat.sub_0_r in G. now apply nth_error_nth.
  - apply IH. intros k' Hk'. apply H. now right.
Qed.

(** With no canonical field named twice, the projected table has the
    canonical labels, in canonical order. *)
Lemma projected_labels_canonical (cols : list string) :
  named_at_most_once cols -> projected_labels cols = CANONICAL_COLUMNS.
Proof.
  intros U. unfold projected_labels. apply selected_labels.
  now apply canonical_position.
Qed.

(** Where the projected labels and cells come from: a position of the table
    of stage 4 whose label is canonical. *)
Lemma projected_labelled_cell (cols : list string) (cells : list value)
    (l : string) (v : value) :
  In (l, v) (combine (projected_labels cols) (projected_cells cols cells)) ->
  exists j,
    In l CANONICAL_COLUMNS
    /\ nth_error (cols ++ lacking CANONICAL_COLUMNS cols) j = Some l
    /\ v = nth j (cells ++ repeat VNone
                                (length (lacking CANONICAL_COLUMNS cols))) VNaN.
Proof.
  unfold projected_labels, projected_cells.
  set (cols4 := cols ++ lacking CANONICAL_COLUMNS cols).
  set (cells4 := cells ++ repeat VNone _).
  assert (C : forall js : list nat,
             combine (map (fun j => nth j cols4 "") js)
                     (map (fun j => nth j cells4 VNaN) js)
             = map (fun j => (nth j cols4 "", nth j cells4 VNaN)) js).
  { induction js as [| j js IH]; cbn; [reflexivity | now rewrite IH]. }
  rewrite C, in_map_iff. intros (j & E & Hj). injection E as <- <-.
  unfold selected in Hj. apply in_flat_map in Hj. destruct Hj as (k & Hk & Hj).
  apply positions_from_nth in Hj. rewrite Nat.sub_0_r in Hj.
  exists j. rewrite (nth_error_nth _ _ _ Hj). auto.
Qed.

(** What the reader returns: rows indexed from 0, one cell per label. *)
Lemma read_excel_source (w : world) (file_path : string) (i : nat)
    (source : DataFrame) :
  read_excel w file_path i = Ok source ->
  well_formed source
  /\ map fst (rows source) = seq 0 (length (rows source)).
Proof.
  unfold read_excel, rbind. destruct (excel w file_path) as [sheet | e];
    [| discriminate].
  destruct (skipn i sheet) as [| header data].
  - intros [= <-]. split; [constructor | reflexivity].
  - intros [= <-]. unfold well_formed; cbn [columns rows].
    assert (L : length (seq 0 (length data))
                = length (map (fit (length (header_names header))) data)).
    { now rewrite length_seq, length_map. }
    split.
    + apply Forall_forall. intros [n cells] Hin. apply in_combine_r in Hin.
      apply in_map_iff in Hin. destruct Hin as (c & <- & _). cbn [snd].
      unfold fit. rewrite length_app, length_firstn, repeat_length. lia.
    + rewrite length_combine, <- L, Nat.min_id, length_seq.
      apply map_fst_combine. now rewrite L.
Qed.

(** [process_sales_file], outcome by outcome. *)
Lemma process_sales_file_eq (w : world) (file_path : string) (st : state) :
  process_sales_file w file_path st
  = let st1 := mkState (stdout st ++ [MsgProcessing (Py.basename file_path)])
                       (written st) in
    match find_header_row w file_path "BOROUGH" with
    | Ok i =>
        match load_and_coerce w file_path i with
        | Ok df =>
            (mkState (stdout st1 ++ [MsgFound (length (rows (dropna_all df)))])
                     (written st),
             Ok (Some (dropna_all df)))
        | Raise e => (st1, Raise e)
        end
    | Raise (ValueError msg) =>
        (mkState (stdout st1 ++ [MsgCouldNotProcess file_path msg]) (written st),
         Ok None)
    | Raise e => (st1, Raise e)
    end.
Proof.
  unfold process_sales_file, bind, print, try_except_ValueError, lift, ret.
  cbn [stdout written].
  destruct (find_header_row w file_path "BOROUGH") as [i | []];
    try reflexivity.
Qed.

(* ===================================================================== *)
(** ** Facts: the per-file processor *)
(* ===================================================================== *)

Lemma has_value_iff (r : nat * list value) :
  has_value r = true <-> exists v, In v (snd r) /\ isna v = false.
Proof.
  unfold has_value. rewrite negb_true_iff. split.
  - intros H. induction (snd r) as [| v vs IH]; [discriminate |].
    cbn in H. destruct (isna v) eqn:E.
    + destruct (IH H) as (v' & Hv' & E'). exists v'. split; [now right | exact E'].
    + exists v. split; [now left | exact E].
  - intros (v & Hv & E). destruct (forallb isna (snd r)) eqn:F; [| reflexivity].
    rewrite forallb_forall in F. rewrite (F v Hv) in E. discriminate.
Qed.

(** C4: the table the per-file processor returns is the table of the
    earlier stages without its rows whose every field is missing: a row is
    in the output exactly when it is a row of that table with a field that
    is not missing, and the rows kept stay in order. *)
Theorem fully_missing_rows_are_dropped
    (w : world) (file_path : string) (st st' : state) (out : DataFrame) :
  process_sales_file w file_path st = (st', Ok (Some out)) ->
  exists i df,
    find_header_row w file_path "BOROUGH" = Ok i
    /\ load_and_coerce w file_path i = Ok df
    /\ columns out = columns df
    /\ rows out = filter has_value (rows df)
    /\ (forall r, In r (rows out)
                  <-> In r (rows df)
                      /\ exists v, In v (snd r) /\ isna v = false)
    /\ (forall r, In r (rows df) ->
                  (forall v, In v (snd r) -> isna v = true) ->
                  ~ In r (rows out)).
Proof.
  rewrite process_sales_file_eq. cbn zeta.
  destruct (find_header_row w file_path "BOROUGH") as [i | e] eqn:F.
  2:{ destruct e; intros H; inversion H. }
  destruct (load_and_coerce w file_path i) as [df | e] eqn:L;
    [| intros H; inversion H].
  intros H. injection H as _ <-. exists i, df.
  split; [reflexivity |]. split; [exact L |]. split; [reflexivity |].
  split; [reflexivity |]. cbn [dropna_all rows]. split.
  - intros r. now rewrite filter_In, has_value_iff.
  - intros r _ Hall Hin. apply filter_In in Hin. destruct Hin as [_ Hv].
    apply has_value_iff in Hv. destruct Hv as (v & Hv & E).
    rewrite (Hall v Hv) in E. discriminate.
Qed.

Lemma isna_coerce_cell (series : list value) (l : string) (v : value) :
  isna v = true -> isna (coerce_cell series l v) = true.
Proof.
  intros H. unfold coerce_cell, numeric_cell.
  destruct v; try discriminate H;
    destruct (mem l numeric_cols), (String.eqb l "sale_date"); reflexivity.
Qed.

(** A cell of the projected table that no source column stands behind is a
    missing marker. *)
Lemma projected_cell_backfilled (cols : list string) (cells : list value)
    (l : string) (v : value) :
  length cells = length cols ->
  ~ In l cols ->
  In (l, v) (combine (projected_labels cols) (projected_cells cols cells)) ->
  isna v = true.
Proof.
  intros Hlen Hl Hin.
  apply projected_labelled_cell in Hin. destruct Hin as (j & _ & Hj & ->).
  destruct (Nat.lt_ge_cases j (length cols)) as [L | G].
  - rewrite nth_error_app1 in Hj by exact L. apply nth_error_In in Hj.
    contradiction.
  - rewrite app_nth2 by lia.
    set (m := length (lacking CANONICAL_COLUMNS cols)).
    destruct (Nat.lt_ge_cases (j - length cells) m) as [L' | G'].
    + rewrite nth_repeat_lt by exact L'. reflexivity.
    + rewrite nth_overflow by (rewrite repeat_length; lia). reflexivity.
Qed.

Lemma In_combine_nth {A B} (a : list A) (b : list B) (j : nat) (da : A) (db : B) :
  j < length a -> length b = length a ->
  In (nth j a da, nth j b db) (combine a b).
Proof.
  intros Hj Hlen. rewrite <- (combine_nth a b j da db) by (symmetry; exact Hlen).
  apply nth_In. rewrite length_combine, Hlen, Nat.min_id. exact Hj.
Qed.

Lemma coerced_fields_in_canonical :
  forall c, In c (numeric_cols ++ ["sale_date"]) ->
            exists j, positions c CANONICAL_COLUMNS = [j].
Proof.
  intros c Hc. cbn in Hc.
  repeat (destruct Hc as [<- | Hc]; [eexists; reflexivity |]).
  destruct Hc.
Qed.

Lemma projected_cells_length (cols : list string) (cells : list value) :
  length (projected_cells cols cells) = length (projected_labels cols).
Proof. unfold projected_cells, projected_labels. now rewrite !length_map. Qed.

(** When no canonical field is the name of two source columns (after
    cleaning and renaming), the per-file processor returns a table whose
    labels are the 21 canonical fields in canonical order, with one cell per
    field in every row; a canonical field that the source lacks is there
    with every value missing; no other label is there. *)
Lemma canonical_columns_of_processed_file
    (w : world) (file_path : string) (i : nat) (source : DataFrame) :
  find_header_row w file_path "BOROUGH" = Ok i ->
  read_excel w file_path i = Ok source ->
  named_at_most_once (map canonical_name (columns source)) ->
  exists out,
    (forall st, snd (process_sales_file w file_path st) = Ok (Some out))
    /\ columns out = CANONICAL_COLUMNS
    /\ well_formed out
    /\ (forall c,
          In c CANONICAL_COLUMNS ->
          ~ In c (map canonical_name (columns source)) ->
          exists j,
            getitem out c = Ok (Series (column j out))
            /\ Forall (fun v => isna v = true) (column j out)).
Proof.
  intros Hfind Hread U.
  set (cols := map canonical_name (columns source)) in *.
  pose proof (projected_labels_canonical cols U) as PL.
  destruct (load_and_coerce_ok w file_path i source Hread) as [df Hdf].
  { fold cols. rewrite PL. exact coerced_fields_in_canonical. }
  destruct (load_and_coerce_spec w file_path i source df Hread Hdf)
    as [Hc [series Hr]].
  fold cols in Hc, Hr. rewrite PL in Hc, Hr.
  destruct (read_excel_source w file_path i source Hread) as [Hwf _].
  exists (dropna_all df). split; [| split; [| split]].
  - intros st. rewrite process_sales_file_eq. cbn zeta.
    now rewrite Hfind, Hdf.
  - exact Hc.
  - unfold well_formed, dropna_all; cbn [columns rows]. rewrite Hc, Hr.
    apply Forall_forall. intros r Hin. apply filter_In in Hin.
    destruct Hin as [Hin _]. apply in_map_iff in Hin.
    destruct Hin as (r0 & <- & _). cbn [snd].
    apply zip_with_length. now rewrite projected_cells_length, PL.
  - intros c Hc1 Hc2.
    destruct (positions_from_NoDup c CANONICAL_COLUMNS 0
                CANONICAL_COLUMNS_distinct Hc1) as [j Hj].
    exists j. split.
    + unfold getitem. cbn [dropna_all columns]. rewrite Hc.
      unfold positions. now rewrite Hj.
    + assert (Hjn : nth_error CANONICAL_COLUMNS (j - 0) = Some c).
      { apply positions_from_nth. rewrite Hj. now left. }
      rewrite Nat.sub_0_r in Hjn.
      assert (Hjl : j < length CANONICAL_COLUMNS).
      { apply nth_error_Some. congruence. }
      unfold column, dropna_all; cbn [rows]. rewrite Hr.
      apply Forall_map, Forall_forall. intros r Hin.
      apply filter_In in Hin. destruct Hin as [Hin _].
      apply in_map_iff in Hin. destruct Hin as (r0 & <- & Hr0).
      unfold cell; cbn [snd].
      assert (Hlen : length (projected_cells cols (snd r0))
                     = length CANONICAL_COLUMNS).
      { now rewrite projected_cells_length, PL. }
      rewrite zip_with_nth by assumption.
      apply isna_coerce_cell.
      apply (projected_cell_backfilled cols (snd r0) c).
      * apply (proj1 (Forall_forall _ _) Hwf) in Hr0. rewrite Hr0.
        unfold cols. now rewrite length_map.
      * exact Hc2.
      * rewrite PL. rewrite <- (nth_error_nth _ _ "" Hjn) at 1.
        now apply In_combine_nth.
Qed.




(* ===================================================================== *)
(** ** Facts: the aggregator *)
(* ===================================================================== *)

Lemma process_sales_file_outcome (w : world) (file_path : string) (st : state) :
  snd (process_sales_file w file_path st) = outcome w file_path
  /\ written (fst (process_sales_file w file_path st)) = written st.
Proof.
  rewrite process_sales_file_eq. unfold outcome. cbn zeta.
  destruct (find_header_row w file_path "BOROUGH") as [i | []];
    try (split; reflexivity).
  destruct (load_and_coerce w file_path i); split; reflexivity.
Qed.

Lemma list_comprehension_outcomes (w : world) (files : list string) :
  forall st,
    snd (list_comprehension (process_sales_file w) files st)
    = sequence (map (outcome w) files)
    /\ written (fst (list_comprehension (process_sales_file w) files st))
       = written st.
Proof.
  induction files as [| f files IH]; intros st; [split; reflexivity |].
  cbn [list_comprehension map sequence]. unfold bind, ret.
  destruct (process_sales_file_outcome w f st) as [Ho Hw].
  destruct (process_sales_file w f st) as [st1 [o | e]];
    cbn [fst snd] in Ho, Hw; rewrite <- Ho; cbn [rbind].
  - destruct (IH st1) as [Hs Hw'].
    destruct (list_comprehension (process_sales_file w) files st1)
      as [st2 [os | e]]; cbn [fst snd] in Hs, Hw' |- *; rewrite <- Hs;
      cbn [rbind]; split; congruence.
  - split; [reflexivity | exact Hw].
Qed.

(** Tables with the same labels are concatenated under those labels. *)
Lemma concat_same_columns (cols : list string) (dfs : list DataFrame) :
  dfs <> [] ->
  Forall (fun df => columns df = cols) dfs ->
  exists rs, concat dfs = Ok (mkDataFrame cols rs)
             /\ map snd rs = flat_map (fun df => map snd (rows df)) dfs.
Proof.
  intros Hne H. destruct dfs as [| df0 dfs]; [congruence |].
  unfold concat.
  assert (F : forallb (fun df => if list_eq_dec string_dec (columns df) (columns df0)
                                 then true else false) (df0 :: dfs) = true).
  { apply forallb_forall. intros df Hdf.
    rewrite (proj1 (Forall_forall _ _) H df Hdf).
    rewrite (proj1 (Forall_forall _ _) H df0 (or_introl eq_refl)).
    now destruct (list_eq_dec string_dec cols cols). }
  rewrite F. rewrite (proj1 (Forall_forall _ _) H df0 (or_introl eq_refl)).
  eexists. split; [reflexivity |].
  apply map_snd_combine. now rewrite length_seq.
Qed.

Lemma concat_well_formed (dfs : list DataFrame) (m : DataFrame) :
  Forall well_formed dfs -> concat dfs = Ok m -> well_formed m.
Proof.
  intros Hwf. destruct dfs as [| df0 dfs]; [discriminate |]. unfold concat.
  destruct (forallb _ (df0 :: dfs)) eqn:F.
  - intros [= <-]. unfold well_formed; cbn [columns rows].
    apply Forall_forall. intros [n cells] Hin. apply in_combine_r in Hin.
    change (In cells (flat_map (fun df => map snd (rows df)) (df0 :: dfs)))
      in Hin.
    apply in_flat_map in Hin. destruct Hin as (df & Hdf & Hin).
    apply in_map_iff in Hin. destruct Hin as (r & <- & Hr). cbn [snd].
    rewrite forallb_forall in F. specialize (F df Hdf).
    destruct (list_eq_dec string_dec (columns df) (columns df0)) as [<- |];
      [| discriminate].
    exact (proj1 (Forall_forall _ _)
             (proj1 (Forall_forall _ _) Hwf df Hdf) r Hr).
  - destruct (forallb (fun df => nodup_labels (columns df)) (df0 :: dfs));
      [| discriminate].
    intros [= <-]. unfold well_formed; cbn [columns rows].
    apply Forall_forall. intros [n cells] Hin. apply in_combine_r in Hin.
    match type of Hin with
    | In _ (?a ++ flat_map ?f dfs) =>
        change (In cells (flat_map f (df0 :: dfs))) in Hin
    end.
    apply in_flat_map in Hin. destruct Hin as (df & Hdf & Hin).
    apply in_map_iff in Hin. destruct Hin as (r & <- & Hr). cbn [snd].
    now rewrite length_map.
Qed.

(** What the processor returns has one cell per label in every row. *)
Lemma outcome_well_formed (w : world) (file_path : string) (out : DataFrame) :
  outcome w file_path = Ok (Some out) -> well_formed out.
Proof.
  unfold outcome.
  destruct (find_header_row w file_path "BOROUGH") as [i | []];
    try discriminate.
  destruct (load_and_coerce w file_path i) as [df | e] eqn:L; [| discriminate].
  cbn [rbind]. intros [= <-].
  destruct (read_excel w file_path i) as [source | e] eqn:R.
  2:{ unfold load_and_coerce in L. rewrite R in L. discriminate. }
  destruct (load_and_coerce_spec w file_path i source df R L)
    as [Hc [series Hr]].
  unfold well_formed, dropna_all; cbn [columns rows]. rewrite Hc, Hr.
  apply Forall_forall. intros r Hin. apply filter_In in Hin.
  destruct Hin as [Hin _]. apply in_map_iff in Hin.
  destruct Hin as (r0 & <- & _). cbn [snd].
  apply zip_with_length, projected_cells_length.
Qed.

Lemma fold_replace_at_tail (G : nat -> value) (k : nat) (js : list nat) :
  (forall j, In j js -> S k <= j) ->
  forall x xs,
    fold_left (fun a j => replace_at (j - k) (G (j - k)) a) js (x :: xs)
    = x :: fold_left (fun a j => replace_at (j - S k) (G (S (j - S k))) a) js xs.
Proof.
  induction js as [| j js IH]; intros H x xs; [reflexivity |].
  cbn [fold_left].
  assert (Hj : S k <= j) by (apply H; now left).
  replace (j - k) with (S (j - S k)) by lia. cbn [replace_at].
  apply IH. intros j' Hj'. apply H. now right.
Qed.

(** Replacing, at each position of the label [c], the cell by [g] of the
    cell that stood there is applying [g] under that label. *)
Lemma fold_replace_at_positions (g : value -> value) (c : string)
    (cols : list string) :
  forall cells k,
    length cells = length cols ->
    fold_left (fun a j => replace_at (j - k) (g (nth (j - k) cells VNaN)) a)
              (positions_from k c cols) cells
    = zip_with (fun l v => if String.eqb l c then g v else v) cols cells.
Proof.
  induction cols as [| l cols IH]; intros [| v vs] k Hlen;
    try discriminate Hlen; [reflexivity |].
  cbn [positions_from]. rewrite zip_with_cons.
  assert (T : forall x,
             fold_left (fun a j => replace_at (j - k)
                                     (g (nth (j - k) (v :: vs) VNaN)) a)
                       (positions_from (S k) c cols) (x :: vs)
             = x :: zip_with (fun l v => if String.eqb l c then g v else v)
                             cols vs).
  { intros x.
    rewrite (fold_replace_at_tail (fun m => g (nth m (v :: vs) VNaN)) k).
    - cbn [nth]. f_equal. apply IH. cbn in Hlen. lia.
    - intros j Hj. now apply positions_from_ge in Hj. }
  destruct (String.eqb l c).
  - cbn [fold_left]. rewrite Nat.sub_diag. cbn [replace_at nth]. apply T.
  - apply T.
Qed.

Lemma in_combine_seq {A} (l : list A) :
  forall k i (a : A), In (i, a) (combine (seq k (length l)) l) ->
                      k <= i /\ nth_error l (i - k) = Some a.
Proof.
  induction l as [| x l IH]; intros k i a; cbn; [intros [] |].
  intros [E | H].
  - injection E as <- <-. rewrite Nat.sub_diag. split; [lia | reflexivity].
  - apply IH in H. destruct H as [Hk H]. split; [lia |].
    replace (i - k) with (S (i - S k)) by lia. exact H.
Qed.

Lemma fold_left_combine_map {A B C} (f : A -> B * C -> A) (h : B -> C)
    (js : list B) :
  forall a, fold_left f (combine js (map h js)) a
            = fold_left (fun a j => f a (j, h j)) js a.
Proof. induction js as [| j js IH]; intros a; cbn; [reflexivity | apply IH]. Qed.

Lemma fold_left_ext_in {A B} (f g : A -> B -> A) (l : list B) :
  (forall a b, In b l -> f a b = g a b) ->
  forall a, fold_left f l a = fold_left g l a.
Proof.
  induction l as [| b l IH]; intros H a; [reflexivity |]. cbn.
  rewrite H by now left. apply IH. intros; apply H. now right.
Qed.

(** [df[col] = df[col].astype(str)], whenever it returns: the labels stay,
    and every cell under the label [col], in one column or in several, is
    replaced by its text. *)
Lemma column_astype_str_spec (df df' : DataFrame) (col : string) :
  well_formed df ->
  column_astype_str df col = Ok df' ->
  columns df' = columns df
  /\ rows df'
     = map (fun r => (fst r, zip_with (text_cell col) (columns df) (snd r)))
           (rows df).
Proof.
  intros Hwf. unfold column_astype_str, getitem.
  destruct (positions col (columns df)) as [| j [| j' js]] eqn:P;
    cbn [rbind astype_str]; [discriminate | |].
  - (* one column: a Series *)
    rewrite (setitem_column df col j (fun v => VStr (str v)) P).
    intros [= <-]. split; [reflexivity |].
    unfold map_column; cbn [rows]. apply map_ext_in. intros [n cells] Hin.
    cbn [fst snd]. f_equal. unfold cell; cbn [snd].
    apply (proj1 (Forall_forall _ _) Hwf) in Hin. cbn [snd] in Hin.
    pose proof (fold_replace_at_positions (fun v => VStr (str v)) col
                  (columns df) cells 0 Hin) as F.
    fold (positions col (columns df)) in F. rewrite P in F. cbn [fold_left] in F.
    rewrite Nat.sub_0_r in F. exact F.
  - (* several columns: a DataFrame *)
    rewrite <- P. clear P j j' js.
    unfold setitem_frame. rewrite !length_map, Nat.eqb_refl. cbn [negb].
    intros [= <-]. cbn [columns rows]. split; [reflexivity |].
    match goal with
    | |- _ = map ?F (rows df) =>
        transitivity (map (fun ir : nat * (nat * list value) => F (snd ir))
                          (combine (seq 0 (length (rows df))) (rows df)));
          [| rewrite <- (map_map snd F), map_snd_combine;
             [reflexivity | now rewrite length_seq]]
    end.
    apply map_ext_in. intros [i [n cells]] Hin.
    cbn [fst snd]. f_equal.
    pose proof (in_combine_seq _ _ _ _ Hin) as [_ Hi].
    rewrite Nat.sub_0_r in Hi.
    assert (Hcells : length cells = length (columns df)).
    { apply nth_error_In in Hi.
      exact (proj1 (Forall_forall _ _) Hwf _ Hi). }
    rewrite map_map, fold_left_combine_map. cbn [fst snd].
    pose proof (fold_replace_at_positions (fun v => VStr (str v)) col
                  (columns df) cells 0 Hcells) as F.
    unfold text_cell. rewrite <- F. unfold positions.
    apply fold_left_ext_in. intros a j0 _. rewrite Nat.sub_0_r. f_equal.
    unfold column. rewrite map_map.
    rewrite (nth_indep _ VNaN (VStr (str (cell j0 (n, cells))))).
    + apply map_nth_error with (f := fun r => VStr (str (cell j0 r))) in Hi.
      now apply nth_error_nth.
    + rewrite length_map. apply nth_error_Some. congruence.
Qed.

Lemma main_run (w : world) (st : state) :
  snd (main w st) = fst (run w)
  /\ written (fst (main w st)) = written st ++ snd (run w).
Proof.
  unfold main, run, os_makedirs, bind, lift, raise, ret.
  destruct (makedirs w (processed_data_path w)) as [e |];
    [now rewrite List.app_nil_r |].
  destruct (listdir w (raw_data_path w)) as [names | e];
    [| now rewrite List.app_nil_r].
  destruct (excel_files w names) as [| f files] eqn:Efiles;
    [cbn; now rewrite List.app_nil_r |].
  destruct (list_comprehension_outcomes w (f :: files) st) as [Hs Hw].
  destruct (list_comprehension (process_sales_file w) (f :: files) st)
    as [st1 r]. cbn [fst snd] in Hs, Hw. rewrite <- Hs.
  destruct r as [all_dfs | e]; [| cbn; now rewrite List.app_nil_r].
  destruct (not_none all_dfs) as [| df dfs] eqn:Edfs;
    [cbn; now rewrite List.app_nil_r |].
  unfold combined, print, to_parquet. cbn [fst snd stdout written].
  destruct (concat (df :: dfs)) as [m0 | e];
    [| cbn; now rewrite List.app_nil_r]. cbn [rbind].
  destruct (column_astype_str m0 "tax_class_at_present") as [m1 | e];
    [| cbn; now rewrite List.app_nil_r]. cbn [rbind].
  destruct (column_astype_str m1 "apartment_number") as [m2 | e];
    [| cbn; now rewrite List.app_nil_r].
  destruct (parquet w (output_file w) m2) as [e |];
    cbn; [now rewrite List.app_nil_r | now rewrite Hw].
Qed.

Lemma sequence_In {A B} (g : A -> result B) (xs : list A) :
  forall ys, sequence (map g xs) = Ok ys ->
             forall y, In y ys -> exists x, In x xs /\ g x = Ok y.
Proof.
  induction xs as [| x xs IH]; intros ys; cbn [map sequence].
  - intros [= <-] y [].
  - destruct (g x) as [b |] eqn:E; cbn [rbind]; [| discriminate].
    destruct (sequence (map g xs)) as [l |]; cbn [rbind]; [| discriminate].
    intros [= <-] y [<- | Hy].
    + exists x. split; [now left | exact E].
    + destruct (IH l eq_refl y Hy) as (x' & Hx' & E'). exists x'.
      split; [now right | exact E'].
Qed.

Lemma not_none_In (all_dfs : list (option DataFrame)) (df : DataFrame) :
  In df (not_none all_dfs) <-> In (Some df) all_dfs.
Proof.
  unfold not_none. rewrite in_flat_map. split.
  - intros ([d |] & Hd & H); [| destruct H].
    destruct H as [<- | []]. exact Hd.
  - intros H. exists (Some df). split; [exact H | now left].
Qed.

Lemma combined_spec (dfs : list DataFrame) (master_df : DataFrame) :
  Forall well_formed dfs ->
  combined dfs = Ok master_df ->
  exists before,
    concat dfs = Ok before
    /\ well_formed before
    /\ columns master_df = columns before
    /\ rows master_df
       = map (fun r => (fst r, zip_with text_fields_cell (columns before) (snd r)))
             (rows before).
Proof.
  intros Hwf. unfold combined.
  destruct (concat dfs) as [m0 | e] eqn:C; [| discriminate]. cbn [rbind].
  pose proof (concat_well_formed dfs m0 Hwf C) as W0.
  destruct (column_astype_str m0 "tax_class_at_present") as [m1 | e] eqn:A1;
    [| discriminate]. cbn [rbind].
  destruct (column_astype_str_spec m0 m1 _ W0 A1) as [C1 R1].
  assert (W1 : well_formed m1).
  { unfold well_formed. rewrite C1, R1. apply Forall_map.
    eapply Forall_impl; [| exact W0]. intros r Hr. cbn [snd].
    now apply zip_with_length. }
  intros A2. destruct (column_astype_str_spec m1 master_df _ W1 A2) as [C2 R2].
  exists m0. split; [reflexivity |]. split; [exact W0 |].
  split; [congruence |].
  rewrite R2, R1, C1, map_map. apply map_ext. intros [n cells]. cbn [fst snd].
  f_equal. rewrite zip_with_zip_with. apply zip_with_ext. intros l v _.
  unfold text_cell, text_fields_cell, mem, text_fields. cbn [existsb].
  destruct (String.eqb l "tax_class_at_present") eqn:E1.
  - apply String.eqb_eq in E1. subst l. reflexivity.
  - rewrite orb_false_r. reflexivity.
Qed.

(** What [main] has written, when it has written: the concatenation of the
    tables of the files that were not skipped, with the two fields coerced
    to text. *)
Lemma main_written (w : world) (st : state) (path : string)
    (master_df : DataFrame) :
  written (fst (main w st)) = written st ++ [(path, master_df)] ->
  exists names all_dfs,
    listdir w (raw_data_path w) = Ok names
    /\ sequence (map (outcome w) (excel_files w names)) = Ok all_dfs
    /\ combined (not_none all_dfs) = Ok master_df
    /\ path = output_file w
    /\ snd (main w st) = Ok tt.
Proof.
  destruct (main_run w st) as [Hr Hw]. rewrite Hw, Hr. clear Hr Hw.
  intros H. apply app_inv_head in H. revert H. unfold run.
  destruct (makedirs w (processed_data_path w)); [discriminate |].
  destruct (listdir w (raw_data_path w)) as [names |]; [| discriminate].
  destruct (excel_files w names) as [| f files] eqn:F; [discriminate |].
  destruct (sequence (map (outcome w) (f :: files))) as [all_dfs |] eqn:S;
    [| discriminate].
  destruct (not_none all_dfs) as [| df dfs] eqn:N; [discriminate |].
  destruct (combined (df :: dfs)) as [m |] eqn:C; [| discriminate].
  destruct (parquet w (output_file w) m); [discriminate |].
  cbn [fst snd]. intros [= <- <-]. exists names, all_dfs.
  rewrite F, S, N. auto.
Qed.


Lemma sequence_skip (w : world) (f : string) (before after : list string) :
  outcome w f = Ok None ->
  collected (sequence (map (outcome w) (before ++ f :: after)))
  = collected (sequence (map (outcome w) (before ++ after))).
Proof.
  intros Hf. unfold collected.
  induction before as [| b before IH]; cbn [app map sequence].
  - rewrite Hf. cbn [rbind].
    destruct (sequence (map (outcome w) after)); reflexivity.
  - destruct (outcome w b) as [o |]; cbn [rbind]; [| reflexivity].
    destruct (sequence (map (outcome w) (before ++ f :: after))) as [l |],
             (sequence (map (outcome w) (before ++ after))) as [l' |];
      cbn [rbind] in *; try congruence.
    injection IH as IH. unfold not_none in *. cbn [flat_map]. now rewrite IH.
Qed.

(** A run over files whose header location fails with a [ValueError]:
    each is announced and reported, none yields a table. *)
Lemma list_comprehension_all_skipped (w : world) (reason : string -> string)
    (files : list string) :
  (forall f, In f files ->
             find_header_row w f "BOROUGH" = Raise (ValueError (reason f))) ->
  forall st,
    list_comprehension (process_sales_file w) files st
    = (mkState (stdout st
                ++ flat_map (fun f => [MsgProcessing (Py.basename f);
                                       MsgCouldNotProcess f (reason f)]) files)
               (written st),
       Ok (map (fun _ => None) files)).
Proof.
  induction files as [| f files IH]; intros H st.
  - cbn. rewrite List.app_nil_r. now destruct st.
  - cbn [list_comprehension flat_map map]. unfold bind, ret.
    rewrite process_sales_file_eq. cbn zeta.
    rewrite (H f (or_introl eq_refl)).
    rewrite IH by (intros; apply H; now right).
    cbn [stdout written]. now rewrite <- !List.app_assoc.
Qed.

(** C7: a file whose header location fails with a [ValueError] is
    announced, reported and skipped: the processor returns [None] for it and
    writes nothing, and the tables [main] goes on with are those of the
    other files, whatever stands before and after it in the listing.  When
    this happens to every file, [main] prints the report that no data was
    processed, writes nothing, and returns. *)
Theorem header_failure_skips_the_file
    (w : world) (file_path msg : string) :
  find_header_row w file_path "BOROUGH" = Raise (ValueError msg) ->
  (forall st,
      process_sales_file w file_path st
      = (mkState (stdout st ++ [MsgProcessing (Py.basename file_path)]
                            ++ [MsgCouldNotProcess file_path msg])
                 (written st),
         Ok None))
  /\ (forall before after st st',
        collected (snd (list_comprehension (process_sales_file w)
                          (before ++ file_path :: after) st))
        = collected (snd (list_comprehension (process_sales_file w)
                            (before ++ after) st')))
  /\ (forall names reason st,
        makedirs w (processed_data_path w) = None ->
        listdir w (raw_data_path w) = Ok names ->
        excel_files w names <> [] ->
        (forall f, In f (excel_files w names) ->
                   find_header_row w f "BOROUGH"
                   = Raise (ValueError (reason f))) ->
        main w st
        = (mkState
             (stdout st
              ++ flat_map (fun f => [MsgProcessing (Py.basename f);
                                     MsgCouldNotProcess f (reason f)])
                          (excel_files w names)
              ++ [MsgNoData])
             (written st),
           Ok tt)).
Proof.
  intros Hfail. split; [| split].
  - intros st. rewrite process_sales_file_eq. cbn zeta. rewrite Hfail.
    cbn [stdout]. now rewrite <- List.app_assoc.
  - intros before after st st'.
    rewrite (proj1 (list_comprehension_outcomes w _ st)),
            (proj1 (list_comprehension_outcomes w _ st')).
    apply sequence_skip. unfold outcome. now rewrite Hfail.
  - intros names reason st Hmk Hls Hne Hall.
    unfold main, os_makedirs, bind, lift, ret. rewrite Hmk, Hls.
    destruct (excel_files w names) as [| f files] eqn:F; [congruence |].
    rewrite (list_comprehension_all_skipped w reason (f :: files) Hall).
    assert (N : not_none (map (fun _ : string => None) (f :: files)) = []).
    { clear. unfold not_none. induction (f :: files); [reflexivity | exact IHl]. }
    rewrite N. unfold print. cbn [stdout written].
    now rewrite <- List.app_assoc.
Qed.

Lemma column_astype_str_ok (df : DataFrame) (col : string) (j : nat) :
  positions col (columns df) = [j] ->
  exists df', column_astype_str df col = Ok df' /\ columns df' = columns df.
Proof.
  intros P. unfold column_astype_str, getitem. rewrite P.
  cbn [rbind astype_str].
  rewrite (setitem_column df col j (fun v => VStr (str v)) P). eauto.
Qed.

Lemma sequence_ok {A B} (g : A -> result B) (Q : B -> Prop) (xs : list A) :
  (forall x, In x xs -> exists y, g x = Ok y /\ Q y) ->
  exists ys, sequence (map g xs) = Ok ys /\ Forall Q ys.
Proof.
  induction xs as [| x xs IH]; intros H; cbn [map sequence]; [eauto |].
  destruct (H x (or_introl eq_refl)) as (y & -> & Hy). cbn [rbind].
  destruct IH as (ys & -> & Hys); [intros; apply H; now right |].
  cbn [rbind]. eauto.
Qed.

Lemma processable_outcome (w : world) (file_path : string) :
  file_is_processable w file_path ->
  exists o,
    outcome w file_path = Ok o
    /\ forall df, o = Some df -> columns df = CANONICAL_COLUMNS.
Proof.
  intros [[msg H] | (i & source & Hf & Hr & U)].
  - exists None. unfold outcome. rewrite H. split; [reflexivity | discriminate].
  - destruct (canonical_columns_of_processed_file w file_path i source Hf Hr U)
      as (out & Hout & Hc & _).
    exists (Some out). split.
    + rewrite <- (proj1 (process_sales_file_outcome w file_path initial)).
      apply Hout.
    + now intros df [= <-].
Qed.

(** Tables with the canonical labels are combined into one with the
    canonical labels. *)
Lemma combined_canonical (dfs : list DataFrame) :
  dfs <> [] ->
  Forall (fun df => columns df = CANONICAL_COLUMNS) dfs ->
  exists master_df,
    combined dfs = Ok master_df /\ columns master_df = CANONICAL_COLUMNS.
Proof.
  intros Hne H. unfold combined.
  destruct (concat_same_columns _ dfs Hne H) as (rs & -> & _). cbn [rbind].
  destruct (column_astype_str_ok (mkDataFrame CANONICAL_COLUMNS rs)
              "tax_class_at_present" 3 eq_refl) as (m1 & -> & C1).
  cbn [rbind]. cbn [columns] in C1.
  destruct (column_astype_str_ok m1 "apartment_number" 9) as (m2 & -> & C2);
    [now rewrite C1 |].
  exists m2. split; [reflexivity | congruence].
Qed.

Lemma run_of_processable_files (w : world) (names : list string) :
  makedirs w (processed_data_path w) = None ->
  listdir w (raw_data_path w) = Ok names ->
  (forall f, In f (excel_files w names) -> file_is_processable w f) ->
  (fst (run w) = Ok tt
   \/ exists master_df e,
        columns master_df = CANONICAL_COLUMNS
        /\ parquet w (output_file w) master_df = Some e
        /\ fst (run w) = Raise e)
  /\ forall path master_df,
       In (path, master_df) (snd (run w)) ->
       columns master_df = CANONICAL_COLUMNS.
Proof.
  intros Hmk Hls Hall. unfold run. rewrite Hmk, Hls.
  destruct (excel_files w names) as [| f files] eqn:F;
    [split; [now left | intros ? ? []] |].
  destruct (sequence_ok (outcome w)
              (fun o => forall df, o = Some df -> columns df = CANONICAL_COLUMNS)
              (f :: files))
    as (all_dfs & -> & Hdfs).
  { intros x Hx. now apply processable_outcome, Hall. }
  destruct (not_none all_dfs) as [| df dfs] eqn:N;
    [split; [now left | intros ? ? []] |].
  destruct (combined_canonical (df :: dfs)) as (m & -> & Hm).
  - discriminate.
  - rewrite <- N. apply Forall_forall. intros d Hd. apply not_none_In in Hd.
    exact (proj1 (Forall_forall _ _) Hdfs _ Hd d eq_refl).
  - destruct (parquet w (output_file w) m) as [e |] eqn:P; cbn [fst snd].
    + split; [right; now exists m, e | intros ? ? []].
    + split; [now left |]. intros path d [[= <- <-] | []]. exact Hm.
Qed.

(** C1, as the code has it: when no canonical field is the name of two
    source columns (after cleaning and renaming), the per-file processor
    returns a table whose labels are the 21 canonical fields in canonical
    order, one cell per field in every row; a canonical field that the
    source lacks is there with every value missing, and no other label is
    there.  When this holds of every file that is not skipped, the
    combined dataset [main] writes has the 21 canonical labels too. *)
Theorem canonical_columns_when_each_field_named_once (w : world) :
  (forall file_path i source,
      find_header_row w file_path "BOROUGH" = Ok i ->
      read_excel w file_path i = Ok source ->
      named_at_most_once (map canonical_name (columns source)) ->
      exists out,
        (forall st, snd (process_sales_file w file_path st) = Ok (Some out))
        /\ columns out = CANONICAL_COLUMNS
        /\ well_formed out
        /\ (forall c,
              In c CANONICAL_COLUMNS ->
              ~ In c (map canonical_name (columns source)) ->
              exists j,
                getitem out c = Ok (Series (column j out))
                /\ Forall (fun v => isna v = true) (column j out)))
  /\ (forall names st path master_df,
        listdir w (raw_data_path w) = Ok names ->
        (forall f, In f (excel_files w names) -> file_is_processable w f) ->
        written (fst (main w st)) = written st ++ [(path, master_df)] ->
        columns master_df = CANONICAL_COLUMNS)
  /\ length CANONICAL_COLUMNS = 21.
Proof.
  split; [| split; [| reflexivity]].
  - intros file_path i source.
    apply canonical_columns_of_processed_file.
  - intros names st path master_df Hls Hall Hw.
    rewrite (proj2 (main_run w st)) in Hw. apply app_inv_head in Hw.
    destruct (makedirs w (processed_data_path w)) as [e |] eqn:Hmk.
    + unfold run in Hw. rewrite Hmk in Hw. discriminate.
    + destruct (run_of_processable_files w names Hmk Hls Hall) as [_ H].
      apply (H path). rewrite Hw. now left.
Qed.


(* ===================================================================== *)
(** ** More facts: what [main] selects and writes *)
(* ===================================================================== *)

Lemma excel_files_In (w : world) (names : list string) (path : string) :
  In path (excel_files w names)
  <-> exists name,
        In name names
        /\ Py.endswith name ".xlsx" = true
        /\ Py.startswith name "~" = false
        /\ path = Py.path_join (raw_data_path w) name.
Proof.
  unfold excel_files. rewrite in_map_iff. split.
  - intros (name & <- & H). apply filter_In in H. destruct H as [Hin H].
    apply andb_true_iff in H. destruct H as [H1 H2].
    apply negb_true_iff in H2. now exists name.
  - intros (name & Hin & H1 & H2 & ->). exists name. split; [reflexivity |].
    apply filter_In. split; [exact Hin |]. now rewrite H1, H2.
Qed.

(** X3: a raw directory without spreadsheets: when no listed name both ends in
    [.xlsx] and does not start with [~], [main] prints that no Excel files
    were found, calls the processor on nothing, writes nothing and returns.
    In general the paths handed to the processor are the listed names that
    end in [.xlsx] and do not start with [~], joined to the raw
    directory. *)
Theorem main_without_spreadsheets
    (w : world) (st : state) (names : list string) :
  makedirs w (processed_data_path w) = None ->
  listdir w (raw_data_path w) = Ok names ->
  (forall name, In name names ->
                Py.endswith name ".xlsx" = false
                \/ Py.startswith name "~" = true) ->
  main w st
  = (mkState (stdout st ++ [MsgNoExcelFiles (raw_data_path w)]) (written st),
     Ok tt)
  /\ forall names' path,
       In path (excel_files w names')
       <-> exists name,
             In name names'
             /\ Py.endswith name ".xlsx" = true
             /\ Py.startswith name "~" = false
             /\ path = Py.path_join (raw_data_path w) name.
Proof.
  intros Hmk Hls Hnone. split; [| intros; apply excel_files_In].
  assert (E : excel_files w names = []).
  { destruct (excel_files w names) as [| p ps] eqn:F; [reflexivity |].
    assert (Hp : In p (excel_files w names)) by (rewrite F; now left).
    apply excel_files_In in Hp. destruct Hp as (name & Hin & H1 & H2 & _).
    destruct (Hnone name Hin); congruence. }
  unfold main, os_makedirs, bind, lift, ret, print.
  now rewrite Hmk, Hls, E.
Qed.

(** X4: [main] writes at most one file, the combined dataset at the output
    path, after everything else has succeeded: what was written before
    stays, and a run that raises, at any stage, has written nothing. *)
Theorem main_writes_only_on_success (w : world) (st : state) :
  exists new,
    written (fst (main w st)) = written st ++ new
    /\ (new = []
        \/ exists master_df,
             new = [(output_file w, master_df)]
             /\ snd (main w st) = Ok tt)
    /\ (forall e, snd (main w st) = Raise e -> new = []).
Proof.
  destruct (main_run w st) as [Hr Hw]. exists (snd (run w)).
  split; [exact Hw |]. rewrite Hr. clear Hr Hw. unfold run.
  destruct (makedirs w (processed_data_path w)); [now split; [left |] |].
  destruct (listdir w (raw_data_path w)) as [names |]; [| now split; [left |]].
  destruct (excel_files w names) as [| f files]; [now split; [left |] |].
  destruct (sequence (map (outcome w) (f :: files))) as [all_dfs |];
    [| now split; [left |]].
  destruct (not_none all_dfs) as [| df dfs]; [now split; [left |] |].
  destruct (combined (df :: dfs)) as [m |]; [| now split; [left |]].
  destruct (parquet w (output_file w) m); [now split; [left |] |].
  cbn [fst snd]. split; [right; now exists m | discriminate].
Qed.


(* ===================================================================== *)
(** ** More facts: cleaning a header that is already clean *)
(* ===================================================================== *)

Lemma clean_name_idempotent (raw : string) :
  clean_name (clean_name raw) = clean_name raw.
Proof.
  rewrite (clean_name_words (clean_name raw)), (clean_name_words raw).
  rewrite Py.split_join_space.
  - f_equal. rewrite map_map. apply map_ext. apply Py.lower_idempotent.
  - apply Forall_forall. intros w Hw. apply in_map_iff in Hw.
    destruct Hw as (v & <- & Hv). apply Py.nospace_lower.
    pose proof (Py.split_words_nospace raw) as F.
    rewrite Forall_forall in F. now apply F.
Qed.

Lemma dict_get_In (d : list (string * string)) (k v : string) :
  dict_get d k = Some v -> In (k, v) d.
Proof.
  induction d as [| [k' v'] d IH]; [discriminate |].
  cbn [dict_get]. destruct (String.eqb k k') eqn:E.
  - apply String.eqb_eq in E. intros [= <-]. subst. now left.
  - intros H. right. now apply IH.
Qed.

Lemma dict_get_None (d : list (string * string)) (k : string) :
  dict_get d k = None <-> ~ In k (map fst d).
Proof.
  induction d as [| [k' v'] d IH]; [cbn; tauto |].
  cbn [dict_get map fst In]. destruct (String.eqb k k') eqn:E.
  - apply String.eqb_eq in E. subst. split; [discriminate | tauto].
  - apply String.eqb_neq in E. rewrite IH. split; [| tauto].
    intros H [K | K]; [congruence | tauto].
Qed.

Lemma COLUMN_MAP_values_canonical :
  Forall (fun kv => In (snd kv) CANONICAL_COLUMNS) COLUMN_MAP.
Proof.
  apply Forall_forall. intros kv H. apply mem_In. revert kv H.
  apply forallb_forall. vm_compute. reflexivity.
Qed.

Lemma CANONICAL_COLUMNS_fixed :
  Forall (fun c => canonical_name c = c) CANONICAL_COLUMNS.
Proof.
  apply Forall_forall. intros c H. apply String.eqb_eq. revert c H.
  apply forallb_forall. vm_compute. reflexivity.
Qed.

Lemma CANONICAL_COLUMNS_mapped :
  Forall (fun c => In c (map snd COLUMN_MAP)) CANONICAL_COLUMNS.
Proof.
  apply Forall_forall. intros c H. apply mem_In. revert c H.
  apply forallb_forall. vm_compute. reflexivity.
Qed.

(** X5: which labels the script keeps, and cleaning twice: a raw header label
    ends with a canonical name exactly when its cleaned form is an alias of
    [COLUMN_MAP] or is a canonical name already; every canonical name is the
    target of some alias, and is left as it is; and cleaning the columns of
    an already cleaned table changes nothing. *)
Theorem clean_column_names_idempotent (df : DataFrame) :
  clean_column_names (clean_column_names df COLUMN_MAP) COLUMN_MAP
  = clean_column_names df COLUMN_MAP
  /\ rows (clean_column_names df COLUMN_MAP) = rows df
  /\ columns (clean_column_names df COLUMN_MAP)
     = map canonical_name (columns df)
  /\ (forall raw,
        In (canonical_name raw) CANONICAL_COLUMNS
        <-> In (clean_name raw) (map fst COLUMN_MAP)
            \/ In (clean_name raw) CANONICAL_COLUMNS)
  /\ (forall c, In c CANONICAL_COLUMNS ->
                canonical_name c = c /\ In c (map snd COLUMN_MAP)).
Proof.
  assert (Fixed : forall c, In c CANONICAL_COLUMNS -> canonical_name c = c).
  { pose proof CANONICAL_COLUMNS_fixed as F. rewrite Forall_forall in F.
    exact F. }
  assert (Idem : forall raw,
             canonical_name (canonical_name raw) = canonical_name raw).
  { intros raw. unfold canonical_name at 2 3, rename.
    destruct (dict_get COLUMN_MAP (clean_name raw)) as [v |] eqn:G.
    - apply dict_get_In in G. apply Fixed.
      pose proof COLUMN_MAP_values_canonical as F. rewrite Forall_forall in F.
      exact (F _ G).
    - unfold canonical_name, rename.
      now rewrite clean_name_idempotent, G. }
  assert (Cols : forall d, columns (clean_column_names d COLUMN_MAP)
                           = map canonical_name (columns d)).
  { intros d. unfold clean_column_names. cbn [columns]. now rewrite map_map. }
  split; [| split; [reflexivity | split; [apply Cols | split]]].
  - transitivity
      (mkDataFrame (columns (clean_column_names
                               (clean_column_names df COLUMN_MAP) COLUMN_MAP))
                   (rows df)); [reflexivity |].
    transitivity
      (mkDataFrame (columns (clean_column_names df COLUMN_MAP)) (rows df));
      [| reflexivity].
    f_equal. rewrite !Cols, map_map. apply map_ext. exact Idem.
  - intros raw. unfold canonical_name, rename.
    destruct (dict_get COLUMN_MAP (clean_name raw)) as [v |] eqn:G.
    + apply dict_get_In in G. split.
      * intros _. left. apply in_map_iff. now exists (clean_name raw, v).
      * intros _. pose proof COLUMN_MAP_values_canonical as F.
        rewrite Forall_forall in F. exact (F _ G).
    + apply dict_get_None in G. tauto.
  - intros c Hc. split; [now apply Fixed |].
    pose proof CANONICAL_COLUMNS_mapped as F. rewrite Forall_forall in F.
    now apply F.
Qed.


(* ===================================================================== *)
(** ** More facts: a converted field named by two columns *)
(* ===================================================================== *)

Lemma positions_from_length (c : string) (cols : list string) (k : nat) :
  length (positions_from k c cols) = count_occ string_dec cols c.
Proof.
  revert k; induction cols as [| l cols IH]; intros k; [reflexivity |].
  cbn [positions_from count_occ]. destruct (string_dec l c) as [-> | N].
  - rewrite String.eqb_refl. cbn [length]. now rewrite IH.
  - apply String.eqb_neq in N. rewrite N. apply IH.
Qed.

Lemma count_occ_constant (a b : string) (l : list string) :
  (forall x, In x l -> x = a) ->
  count_occ string_dec l b = if string_dec a b then length l else 0.
Proof.
  induction l as [| x l IH]; intros H; [now destruct (string_dec a b) |].
  cbn [count_occ length]. rewrite IH by (intros y Hy; apply H; now right).
  rewrite (H x (or_introl eq_refl)). now destruct (string_dec a b).
Qed.

(** [df[keys]] keeps each column of a key: a key's label is met in the
    selection as often as in the table. *)
Lemma selected_count (keys cols : list string) (k : string) :
  NoDup keys ->
  count_occ string_dec (map (fun j => nth j cols "") (selected keys cols)) k
  = if in_dec string_dec k keys then count_occ string_dec cols k else 0.
Proof.
  unfold selected. induction keys as [| k' keys IH]; intros Hnd; [reflexivity |].
  inversion Hnd as [| ? ? Hk' Hnd']; subst.
  cbn [flat_map]. rewrite map_app, count_occ_app, (IH Hnd').
  rewrite (count_occ_constant k').
  2:{ intros x Hx. apply in_map_iff in Hx. destruct Hx as (j & <- & Hj).
      apply positions_from_nth in Hj. rewrite Nat.sub_0_r in Hj.
      now apply nth_error_nth. }
  rewrite length_map. unfold positions. rewrite positions_from_length.
  destruct (string_dec k' k) as [-> | N].
  - destruct (in_dec string_dec k keys) as [I | I]; [contradiction |].
    destruct (in_dec string_dec k (k :: keys)) as [_ | J];
      [lia | exfalso; apply J; now left].
  - destruct (in_dec string_dec k keys) as [I | I];
      destruct (in_dec string_dec k (k' :: keys)) as [J | J];
      try reflexivity.
    + exfalso. apply J. now right.
    + destruct J as [J | J]; [congruence | contradiction].
Qed.

(** How often the projected table holds a canonical label: as often as the
    source names it, and once when the source does not name it. *)
Lemma projected_count (cols : list string) (c : string) :
  In c CANONICAL_COLUMNS ->
  length (positions c (projected_labels cols))
  = Nat.max 1 (length (positions c cols)).
Proof.
  intros Hc. unfold positions. rewrite !positions_from_length.
  unfold projected_labels. rewrite (selected_count _ _ _ CANONICAL_COLUMNS_distinct).
  destruct (in_dec string_dec c CANONICAL_COLUMNS) as [_ | N]; [| contradiction].
  rewrite count_occ_app.
  destruct (mem c cols) eqn:E.
  - assert (L : count_occ string_dec (lacking CANONICAL_COLUMNS cols) c = 0).
    { apply count_occ_not_In. unfold lacking. rewrite filter_In.
      intros [_ H]. now rewrite E in H. }
    apply mem_In in E. apply (count_occ_In string_dec) in E. lia.
  - assert (L : count_occ string_dec (lacking CANONICAL_COLUMNS cols) c = 1).
    { apply NoDup_count_occ'.
      - apply NoDup_filter, CANONICAL_COLUMNS_distinct.
      - apply filter_In. split; [exact Hc | now rewrite E]. }
    apply mem_false in E. apply (count_occ_not_In string_dec) in E. lia.
Qed.

(** The numeric loop: it goes through when each field labels one column, and
    raises the [TypeError] of [to_numeric] at the first field that labels
    several. *)
Lemma coerce_numeric_columns_result (cols : list string) :
  forall df,
    (forall c, In c cols -> 1 <= length (positions c (columns df))) ->
    ((forall c, In c cols -> length (positions c (columns df)) = 1)
     /\ exists df', for_each cols coerce_numeric_column df = Ok df')
    \/ ((exists c, In c cols /\ 2 <= length (positions c (columns df)))
        /\ for_each cols coerce_numeric_column df
           = Raise (TypeError
                      "arg must be a list, tuple, 1-d array, or Series")).
Proof.
  induction cols as [| c cols IH]; intros df H; cbn [for_each].
  - left. split; [intros c [] | eauto].
  - rewrite coerce_numeric_column_eq.
    pose proof (H c (or_introl eq_refl)) as Hc.
    destruct (positions c (columns df)) as [| j [| j' js]] eqn:E;
      cbn [length] in Hc; [lia | |].
    + cbn [rbind].
      destruct (IH (map_column j to_numeric_value df)) as [[A B] | [A B]].
      * intros c' Hc'. cbn [map_column columns]. apply H. now right.
      * left. split; [| exact B]. intros c' [<- | Hc']; [now rewrite E |].
        now apply A.
      * right. split; [| exact B]. destruct A as (c' & Hc' & A).
        exists c'. split; [now right | exact A].
    + right. split; [| reflexivity]. exists c. split; [now left |].
      rewrite E. cbn [length]. lia.
Qed.

(** Steps 2 to 5 on a source that was read: what they return or raise, by
    how often the source names the fields to convert. *)
Lemma load_and_coerce_result (w : world) (file_path : string) (i : nat)
    (source : DataFrame) :
  read_excel w file_path i = Ok source ->
  ((forall c, In c (numeric_cols ++ ["sale_date"]) ->
              length (positions c (map canonical_name (columns source))) <= 1)
   /\ exists df, load_and_coerce w file_path i = Ok df)
  \/ ((exists c, In c numeric_cols
                 /\ 2 <= length (positions c (map canonical_name
                                                  (columns source))))
      /\ load_and_coerce w file_path i
         = Raise (TypeError "arg must be a list, tuple, 1-d array, or Series"))
  \/ ((forall c, In c numeric_cols ->
                 length (positions c (map canonical_name (columns source)))
                 <= 1)
      /\ 2 <= length (positions "sale_date"
                                (map canonical_name (columns source)))
      /\ load_and_coerce w file_path i
         = Raise (ValueError "cannot assemble with duplicate keys")).
Proof.
  intros Hread. unfold load_and_coerce. rewrite Hread. cbn [rbind].
  rewrite (ensure_columns _ CANONICAL_COLUMNS_distinct). cbn [rbind].
  unfold clean_column_names. cbn [columns rows]. rewrite map_map.
  change (fun x => rename COLUMN_MAP (clean_name x)) with canonical_name.
  set (cols := map canonical_name (columns source)) in *.
  rewrite getitem_list_ok; cbn [columns rows rbind].
  2:{ intros k Hk. apply in_or_app.
      destruct (mem k cols) eqn:E; [left; now apply mem_In |].
      right. apply filter_In. split; [exact Hk | now rewrite E]. }
  match goal with
  | |- context [for_each numeric_cols coerce_numeric_column ?d] =>
      set (df5 := d)
  end.
  assert (Hwf : well_formed df5).
  { unfold well_formed, df5; cbn [columns rows]. apply Forall_map.
    apply Forall_forall. intros r _. cbn [snd]. now rewrite !length_map. }
  assert (Num : forall c, In c numeric_cols -> In c CANONICAL_COLUMNS).
  { intros c Hc. apply mem_In. revert c Hc. apply forallb_forall.
    reflexivity. }
  assert (Cnt : forall c, In c CANONICAL_COLUMNS ->
                  length (positions c (columns df5))
                  = Nat.max 1 (length (positions c cols))).
  { intros c Hc. exact (projected_count cols c Hc). }
  destruct (coerce_numeric_columns_result numeric_cols df5)
    as [[A [df6 N]] | [(c & Hc & A) N]].
  - intros c Hc. rewrite (Cnt c (Num c Hc)). lia.
  - rewrite N. cbn [rbind].
    destruct (coerce_numeric_columns _ _ _ Hwf N) as [Hc6 _].
    rewrite coerce_date_column_eq, Hc6.
    assert (D : In "sale_date" CANONICAL_COLUMNS)
      by (apply mem_In; reflexivity).
    pose proof (Cnt _ D) as CD.
    assert (NumOnce : forall c, In c numeric_cols ->
                                length (positions c cols) <= 1).
    { intros c Hc. pose proof (A c Hc) as Ac.
      rewrite (Cnt c (Num c Hc)) in Ac. lia. }
    destruct (positions "sale_date" (columns df5)) as [| j [| j' js]] eqn:P;
      cbn [length] in CD.
    + lia.
    + left. split; [| eauto]. intros c Hc. apply in_app_or in Hc.
      destruct Hc as [Hc | [<- | []]]; [now apply NumOnce | lia].
    + right. right. split; [exact NumOnce |]. split; [lia | reflexivity].
  - right. left. split; [| now rewrite N].
    exists c. split; [exact Hc |]. rewrite (Cnt c (Num c Hc)) in A. lia.
Qed.

(** X6: what the per-file processor does once the header is located and the
    table read, by how often the source names the fields it converts.  With
    each of the ten numeric fields and the date field named by at most one
    column it returns a table.  With a numeric field named by two columns
    or more, the [TypeError] of [to_numeric] leaves the function.  With the
    numeric fields named at most once and the date field named by two
    columns or more, the [ValueError] of [to_datetime] leaves it: the
    handler of the header location does not take it.  No other case
    exists. *)
Theorem a_converted_field_named_twice_raises
    (w : world) (file_path : string) (i : nat) (source : DataFrame) :
  find_header_row w file_path "BOROUGH" = Ok i ->
  read_excel w file_path i = Ok source ->
  ((forall c, In c (numeric_cols ++ ["sale_date"]) ->
              length (positions c (map canonical_name (columns source))) <= 1)
   -> exists out,
        forall st, snd (process_sales_file w file_path st) = Ok (Some out))
  /\ ((exists c, In c numeric_cols
                 /\ 2 <= length (positions c (map canonical_name
                                                  (columns source))))
      -> forall st,
           snd (process_sales_file w file_path st)
           = Raise (TypeError
                      "arg must be a list, tuple, 1-d array, or Series"))
  /\ ((forall c, In c numeric_cols ->
                 length (positions c (map canonical_name (columns source)))
                 <= 1)
      -> 2 <= length (positions "sale_date"
                                (map canonical_name (columns source)))
      -> forall st,
           snd (process_sales_file w file_path st)
           = Raise (ValueError "cannot assemble with duplicate keys")).
Proof.
  intros Hh Hread.
  assert (D : In "sale_date" (numeric_cols ++ ["sale_date"])).
  { apply in_or_app. right. now left. }
  assert (P : forall st, snd (process_sales_file w file_path st)
                         = rbind (load_and_coerce w file_path i)
                                 (fun df => Ok (Some (dropna_all df)))).
  { intros st. rewrite process_sales_file_eq, Hh. cbn zeta.
    now destruct (load_and_coerce w file_path i). }
  destruct (load_and_coerce_result w file_path i source Hread)
    as [[A [df E]] | [[(c & Hc & A) E] | (A & B & E)]].
  - split; [| split].
    + intros _. exists (dropna_all df). intros st. now rewrite P, E.
    + intros (c & Hc & B). exfalso.
      specialize (A c (in_or_app _ _ _ (or_introl Hc))). lia.
    + intros _ B. exfalso.
      specialize (A "sale_date" D). lia.
  - split; [| split].
    + intros B. exfalso.
      specialize (B c (in_or_app _ _ _ (or_introl Hc))). lia.
    + intros _ st. now rewrite P, E.
    + intros B _. exfalso. specialize (B c Hc). lia.
  - split; [| split].
    + intros C. exfalso.
      specialize (C "sale_date" D). lia.
    + intros (c & Hc & C). exfalso. specialize (A c Hc). lia.
    + intros _ _ st. now rewrite P, E.
Qed.


(* ===================================================================== *)
(** ** More facts: where the cells of a processed file come from *)
(* ===================================================================== *)






(* ===================================================================== *)
(** ** More facts: the rows and the index of the combined dataset *)
(* ===================================================================== *)

(** [pd.concat(dfs, ignore_index=True)] keeps every row of every table and
    numbers the rows from 0. *)
Lemma concat_rows (dfs : list DataFrame) (m : DataFrame) :
  concat dfs = Ok m ->
  length (rows m) = list_sum (map (fun df => length (rows df)) dfs)
  /\ map fst (rows m) = seq 0 (length (rows m)).
Proof.
  assert (R : forall rs : list (list value),
             length (combine (seq 0 (length rs)) rs) = length rs
             /\ map fst (combine (seq 0 (length rs)) rs)
                = seq 0 (length (combine (seq 0 (length rs)) rs))).
  { intros rs. rewrite length_combine, length_seq, Nat.min_id.
    split; [reflexivity |]. apply map_fst_combine. apply length_seq. }
  unfold concat. destruct dfs as [| df0 dfs0] eqn:D; [discriminate |].
  rewrite <- D. clear D dfs0.
  assert (S : forall (f : DataFrame -> list (list value)),
             (forall df, length (f df) = length (rows df)) ->
             length (flat_map f dfs)
             = list_sum (map (fun df => length (rows df)) dfs)).
  { intros f Hf. rewrite length_flat_map. f_equal. now apply map_ext. }
  destruct (forallb _ dfs).
  - intros [= <-]. cbn [rows].
    destruct (R (flat_map (fun df => map snd (rows df)) dfs)) as [L I].
    split; [| exact I]. rewrite L. apply S. intros df. apply length_map.
  - destruct (forallb _ dfs); [| discriminate].
    intros [= <-]. cbn [rows].
    match goal with
    | |- context [combine _ ?rs] => destruct (R rs) as [L I]
    end.
    split; [| exact I]. rewrite L. apply S. intros df. apply length_map.
Qed.

(** X8: the rows of the combined dataset.  When [main] writes a dataset, the
    calls of [process_sales_file] on the spreadsheets of the raw directory
    have all returned, and the dataset has one row for each row of each
    table they returned, the files that were skipped giving none; its index
    runs from 0 to the number of rows less one, whatever index the rows had
    in their files. *)
Theorem combined_dataset_has_every_retained_row
    (w : world) (st : state) (path : string) (master_df : DataFrame) :
  written (fst (main w st)) = written st ++ [(path, master_df)] ->
  exists names all_dfs,
    listdir w (raw_data_path w) = Ok names
    /\ (forall st',
          snd (list_comprehension (process_sales_file w)
                                  (excel_files w names) st')
          = Ok all_dfs)
    /\ length (rows master_df)
       = list_sum (map (fun df => length (rows df)) (not_none all_dfs))
    /\ map fst (rows master_df) = seq 0 (length (rows master_df)).
Proof.
  intros H.
  destruct (main_written w st path master_df H)
    as (names & all_dfs & Hls & Hseq & Hcomb & _ & _).
  exists names, all_dfs. split; [exact Hls |].
  split.
  { intros st'.
    now rewrite (proj1 (list_comprehension_outcomes w _ st')). }
  assert (Hwf : Forall well_formed (not_none all_dfs)).
  { apply Forall_forall. intros df Hdf. apply not_none_In in Hdf.
    destruct (sequence_In _ _ _ Hseq _ Hdf) as (f & _ & Hf).
    exact (outcome_well_formed w f df Hf). }
  destruct (combined_spec _ _ Hwf Hcomb) as (before & Hcat & _ & _ & Hr).
  destruct (concat_rows _ _ Hcat) as [L I].
  rewrite Hr, length_map, map_map. cbn [fst].
  split; [exact L | exact I].
Qed.

(* ===================================================================== *)
(** ** More facts: the files of the fetcher, seen by [main] *)
(* ===================================================================== *)

Lemma string_append_assoc (a b c : string) :
  ((a ++ b) ++ c = a ++ (b ++ c))%string.
Proof. induction a as [| x a IH]; [reflexivity |]. cbn. now rewrite IH. Qed.

Lemma endswith_app (a p : string) : Py.endswith (a ++ p)%string p = true.
Proof.
  unfold Py.endswith.
  assert (L : String.length (a ++ p)%string
              = String.length a + String.length p).
  { induction a as [| c a IH]; [reflexivity |]. cbn. now rewrite IH. }
  rewrite L. apply andb_true_iff. split; [apply Nat.leb_le; lia |].
  apply String.eqb_eq.
  replace (String.length a + String.length p - String.length p)
    with (String.length a) by lia.
  clear L. induction a as [| c a IH]; cbn [append String.length substring].
  - induction p as [| c p IH]; [reflexivity |]. cbn. now rewrite IH.
  - exact IH.
Qed.

Lemma filename_is_no_lock_file (year : Z) (rest : string) :
  Py.startswith (Py.str_int year ++ "_" ++ rest)%string "~" = false.
Proof.
  unfold Py.str_int, NilEmpty.string_of_int.
  destruct (Z.to_int year) as [d | d]; [destruct d; reflexivity | reflexivity].
Qed.

(** X9: the two scripts fit: the name the fetcher gives a file, for whatever
    year and borough, ends in [.xlsx] and does not start with [~]; so when
    the raw directory lists it, [main] hands the file, under the raw
    directory, to [process_sales_file]. *)
Theorem fetched_files_are_handed_to_the_processor
    (w : world) (names : list string) (year : Z) (borough : string) :
  In (DownloadData.filename (DownloadData.assignments year borough)) names ->
  Py.endswith (DownloadData.filename (DownloadData.assignments year borough))
              ".xlsx" = true
  /\ Py.startswith (DownloadData.filename
                      (DownloadData.assignments year borough)) "~" = false
  /\ In (Py.path_join
           (raw_data_path w)
           (DownloadData.filename (DownloadData.assignments year borough)))
        (excel_files w names).
Proof.
  intros Hin.
  assert (E : Py.endswith (DownloadData.filename
                             (DownloadData.assignments year borough))
                          ".xlsx" = true).
  { cbn [DownloadData.assignments DownloadData.assignments_with
           DownloadData.filename].
    change (Py.str_int year ++ "_" ++ borough ++ ".xlsx")%string
      with (Py.str_int year ++ (String "_" borough) ++ ".xlsx")%string.
    rewrite <- string_append_assoc.
    apply endswith_app. }
  assert (S : Py.startswith (DownloadData.filename
                               (DownloadData.assignments year borough))
                            "~" = false).
  { apply filename_is_no_lock_file. }
  split; [exact E |]. split; [exact S |].
  apply excel_files_In. eexists. split; [exact Hin |].
  split; [exact E |]. split; [exact S | reflexivity].
Qed.

(* ===================================================================== *)
(** ** More facts: what a run prints *)
(* ===================================================================== *)

Lemma process_sales_file_log (w : world) (file_path : string) (st : state) :
  exists log,
    stdout (fst (process_sales_file w file_path st)) = stdout st ++ log
    /\ announced log = [Py.basename file_path]
    /\ found_counts log
       = match snd (process_sales_file w file_path st) with
         | Ok (Some out) => [length (rows out)]
         | _ => []
         end.
Proof.
  rewrite process_sales_file_eq. cbn zeta.
  destruct (find_header_row w file_path "BOROUGH") as [i | []].
  - destruct (load_and_coerce w file_path i) as [df | e]; cbn [fst snd stdout].
    + exists [MsgProcessing (Py.basename file_path);
              MsgFound (length (rows (dropna_all df)))].
      rewrite <- List.app_assoc. repeat split.
    + exists [MsgProcessing (Py.basename file_path)]. repeat split.
  - cbn [fst snd stdout].
    eexists [MsgProcessing (Py.basename file_path); MsgCouldNotProcess _ _].
    rewrite <- List.app_assoc. repeat split.
  - exists [MsgProcessing (Py.basename file_path)]. repeat split.
  - exists [MsgProcessing (Py.basename file_path)]. repeat split.
  - exists [MsgProcessing (Py.basename file_path)]. repeat split.
  - exists [MsgProcessing (Py.basename file_path)]. repeat split.
  - exists [MsgProcessing (Py.basename file_path)]. repeat split.
Qed.

Lemma announced_app (a b : list message) :
  announced (a ++ b) = announced a ++ announced b.
Proof. apply flat_map_app. Qed.

Lemma found_counts_app (a b : list message) :
  found_counts (a ++ b) = found_counts a ++ found_counts b.
Proof. apply flat_map_app. Qed.

Lemma list_comprehension_log (w : world) (files : list string) :
  forall st all_dfs,
    snd (list_comprehension (process_sales_file w) files st) = Ok all_dfs ->
    exists log,
      stdout (fst (list_comprehension (process_sales_file w) files st))
      = stdout st ++ log
      /\ announced log = map Py.basename files
      /\ found_counts log
         = map (fun df => length (rows df)) (not_none all_dfs).
Proof.
  induction files as [| f files IH]; intros st all_dfs.
  - cbn. intros [= <-]. exists []. now rewrite List.app_nil_r.
  - cbn [list_comprehension]. unfold bind, ret.
    destruct (process_sales_file_log w f st) as (log1 & H1 & A1 & F1).
    destruct (process_sales_file w f st) as [st1 [o | e]];
      cbn [fst snd] in H1, F1 |- *; [| discriminate].
    specialize (IH st1).
    destruct (list_comprehension (process_sales_file w) files st1)
      as [st2 [os | e]]; cbn [fst snd] in IH |- *; [| discriminate].
    intros [= <-]. destruct (IH os eq_refl) as (log2 & H2 & A2 & F2).
    exists (log1 ++ log2). rewrite H2, H1, List.app_assoc.
    split; [reflexivity |].
    rewrite announced_app, found_counts_app, A1, A2, F1, F2.
    split; [reflexivity |].
    destruct o as [out |]; reflexivity.
Qed.

(** X10: what a run that writes a dataset prints.  The run announces each
    spreadsheet of the raw directory once, in the order of the listing, by
    its base name; after the lines of the files come the line that announces
    the combination, the total, the output path and the two closing lines;
    and the total printed is the number of rows of the dataset written,
    which is the sum of the row counts printed for the files. *)
Theorem the_printed_total_is_the_sum_of_the_printed_counts
    (w : world) (st : state) (path : string) (master_df : DataFrame) :
  written (fst (main w st)) = written st ++ [(path, master_df)] ->
  exists names log,
    listdir w (raw_data_path w) = Ok names
    /\ stdout (fst (main w st))
       = stdout st ++ log
         ++ [ MsgCombining; MsgTotalRows (length (rows master_df));
              MsgSaving (output_file w); MsgComplete; MsgNextSteps ]
    /\ announced log = map Py.basename (excel_files w names)
    /\ list_sum (found_counts log) = length (rows master_df).
Proof.
  assert (Nothing : forall new : list (string * DataFrame),
             written st = written st ++ (path, master_df) :: new -> False).
  { intros new E. rewrite <- (List.app_nil_r (written st)) in E at 1.
    apply app_inv_head in E. discriminate. }
  unfold main, os_makedirs, bind, lift, raise, ret.
  destruct (makedirs w (processed_data_path w)) as [e |];
    [intros E; destruct (Nothing _ E) |].
  destruct (listdir w (raw_data_path w)) as [names | e];
    [| intros E; destruct (Nothing _ E)].
  destruct (excel_files w names) as [| f files] eqn:Efiles;
    [intros E; destruct (Nothing _ E) |].
  destruct (list_comprehension_outcomes w (f :: files) st) as [Hs Hw].
  pose proof (list_comprehension_log w (f :: files) st) as Hlog.
  destruct (list_comprehension (process_sales_file w) (f :: files) st)
    as [st1 r]. cbn [fst snd] in Hs, Hw, Hlog.
  destruct r as [all_dfs | e];
    [| cbn [fst written]; rewrite Hw; intros E; destruct (Nothing _ E)].
  destruct (Hlog all_dfs eq_refl) as (log & L & A & F). clear Hlog.
  assert (Hwf : Forall well_formed (not_none all_dfs)).
  { apply Forall_forall. intros df Hdf. apply not_none_In in Hdf.
    symmetry in Hs.
    destruct (sequence_In _ _ _ Hs _ Hdf) as (f' & _ & Hf).
    exact (outcome_well_formed w f' df Hf). }
  destruct (not_none all_dfs) as [| df dfs] eqn:Edfs;
    [cbn [fst written print]; rewrite Hw; intros E; destruct (Nothing _ E) |].
  unfold print, to_parquet. cbn [fst snd stdout written].
  destruct (concat (df :: dfs)) as [m0 | e] eqn:C;
    [| cbn [fst written]; rewrite Hw; intros E; destruct (Nothing _ E)].
  pose proof (concat_well_formed _ _ Hwf C) as Hwf0.
  destruct (concat_rows _ _ C) as [Hn _].
  destruct (column_astype_str m0 "tax_class_at_present") as [m1 | e] eqn:C1;
    [| cbn [fst written]; rewrite Hw; intros E; destruct (Nothing _ E)].
  destruct (column_astype_str_spec _ _ _ Hwf0 C1) as [Hc1 Hr1].
  assert (Hwf1 : well_formed m1).
  { unfold well_formed. rewrite Hc1, Hr1. apply Forall_map.
    eapply Forall_impl; [| exact Hwf0]. intros r Hr. cbn [snd].
    now apply zip_with_length. }
  destruct (column_astype_str m1 "apartment_number") as [m2 | e] eqn:C2;
    [| cbn [fst written]; rewrite Hw; intros E; destruct (Nothing _ E)].
  destruct (column_astype_str_spec _ _ _ Hwf1 C2) as [_ Hr2].
  destruct (parquet w (output_file w) m2) as [e |];
    [cbn [fst written]; rewrite Hw; intros E; destruct (Nothing _ E) |].
  cbn [fst written stdout]. rewrite Hw. intros E.
  apply app_inv_head in E. injection E as _ <-.
  assert (Len : length (rows m2) = length (rows m0)).
  { now rewrite Hr2, length_map, Hr1, length_map. }
  exists names, log. split; [reflexivity |].
  split; [| split].
  - rewrite L, Len, <- !List.app_assoc. reflexivity.
  - rewrite A. now rewrite Efiles.
  - rewrite F, Len. now rewrite Hn.
Qed.

End Facts.

(* ===================================================================== *)
(** ** Concrete runs *)
(* ===================================================================== *)

Lemma named_at_most_once_check (cols : list string) :
  named_at_most_once_b cols = true -> named_at_most_once cols.
Proof.
  unfold named_at_most_once_b, named_at_most_once. rewrite forallb_forall.
  intros H c Hc. now apply Nat.leb_le, H.
Qed.

Lemma bronx_header : forall lib : Pandas,
  @find_header_row lib example_world bronx "BOROUGH" = Ok 1.
Proof. reflexivity. Qed.

Lemma bronx_read : forall sn sd pd,
  @read_excel (library sn sd pd) example_world bronx 1 = Ok bronx_source.
Proof. reflexivity. Qed.

Lemma bronx_run : forall sn sd pd,
  @process_sales_file (library sn sd pd) example_world bronx initial
  = (mkState [MsgProcessing "2019_bronx.xlsx"; MsgFound 2] [],
     Ok (Some bronx_table)).
Proof. intros. vm_compute. reflexivity. Qed.

Lemma example_main_run : forall sn sd pd,
  @main (library sn sd pd) example_world initial
  = (mkState
       [ MsgProcessing "2019_bronx.xlsx"; MsgFound 2;
         MsgProcessing "2019_queens.xlsx";
         MsgCouldNotProcess queens
           "Header keyword 'BOROUGH' not found in the first 10 rows of /repo/data/raw/2019_queens.xlsx";
         MsgCombining; MsgTotalRows 2; MsgSaving example_output_file;
         MsgComplete; MsgNextSteps ]
       [(example_output_file, bronx_written)],
     Ok tt).
Proof. intros. vm_compute. reflexivity. Qed.

(** C1 fails as stated: for a source that names the tax class under both
    of its labels, the processor returns a table of 22 columns, whatever
    the library prints and parses. *)
Lemma both_tax_class_labels_give_22_columns :
  (forall sn sd pd,
      snd (@process_sales_file (library sn sd pd)
             world_with_both_tax_class_labels manhattan initial)
      = Ok (Some manhattan_table))
  /\ length (columns manhattan_table) = 22
  /\ columns manhattan_table <> CANONICAL_COLUMNS.
Proof.
  split; [intros; vm_compute; reflexivity |].
  split; [reflexivity | discriminate].
Qed.



(** ** The theorems at concrete inputs *)

Lemma canonical_columns_witness :
  find_header_row (pandas := reference) example_world bronx "BOROUGH" = Ok 1
  /\ read_excel (pandas := reference) example_world bronx 1 = Ok bronx_source
  /\ named_at_most_once (map canonical_name (columns bronx_source))
  /\ exists out,
       snd (process_sales_file (pandas := reference) example_world bronx initial)
       = Ok (Some out)
       /\ columns out = CANONICAL_COLUMNS.
Proof.
  pose proof (bronx_header reference) as H1.
  pose proof (bronx_read _ _ _ : read_excel (pandas := reference) _ _ _ = _)
    as H2.
  pose proof (named_at_most_once_check
                (map canonical_name (columns bronx_source)) eq_refl) as H3.
  split; [exact H1 |]. split; [exact H2 |]. split; [exact H3 |].
  destruct (proj1 (canonical_columns_when_each_field_named_once
                     (pandas := reference) example_world)
              bronx 1 bronx_source H1 H2 H3) as (out & Hrun & Hc & _).
  exists out. split; [apply Hrun | exact Hc].
Defined.

Lemma aliases_witness :
  In ("tax class at present", "tax_class_at_present") COLUMN_MAP
  /\ same_words_ignoring_case
       ("  TAX  Class" ++ String (ascii_of_nat 10) "At Present ")
       "tax class at present"
  /\ canonical_name ("  TAX  Class" ++ String (ascii_of_nat 10) "At Present ")
     = "tax_class_at_present".
Proof.
  assert (H1 : In ("tax class at present", "tax_class_at_present") COLUMN_MAP).
  { cbn. tauto. }
  assert (H2 : same_words_ignoring_case
                 ("  TAX  Class" ++ String (ascii_of_nat 10) "At Present ")
                 "tax class at present") by reflexivity.
  split; [exact H1 |]. split; [exact H2 |].
  exact (proj1 (aliases_map_to_canonical_names _) _ _ H1 H2).
Defined.

Lemma header_locator_witness :
  excel example_world brooklyn = Ok brooklyn_sheet
  /\ find_header_row (pandas := reference) example_world brooklyn "BOROUGH"
     = Ok 9
  /\ (forall j row, j < 9 -> nth_error brooklyn_sheet j = Some row ->
                    row_has_keyword (pandas := reference) "BOROUGH" row = false)
  /\ excel example_world queens = Ok queens_sheet
  /\ nth_error queens_sheet 10 = Some [VStr "BOROUGH"; VStr "BLOCK"]
  /\ find_header_row (pandas := reference) example_world queens "BOROUGH"
     = Raise (header_not_found "BOROUGH" queens)
  /\ no_keyword_in_first_ten (pandas := reference) "BOROUGH" queens_sheet.
Proof.
  assert (B : excel example_world brooklyn = Ok brooklyn_sheet) by reflexivity.
  assert (Q : excel example_world queens = Ok queens_sheet) by reflexivity.
  assert (F : find_header_row (pandas := reference) example_world brooklyn
                "BOROUGH" = Ok 9) by reflexivity.
  assert (G : find_header_row (pandas := reference) example_world queens
                "BOROUGH" = Raise (header_not_found "BOROUGH" queens))
    by reflexivity.
  split; [exact B |]. split; [exact F |].
  split.
  { exact (proj2 (proj2 (proj1 (proj1 (header_locator_scans_first_ten_rows
                                         (pandas := reference)
                                         example_world brooklyn "BOROUGH"
                                         brooklyn_sheet B) 9) F))). }
  split; [exact Q |]. split; [reflexivity |]. split; [exact G |].
  exact (proj2 (proj1 (proj1 (proj2 (header_locator_scans_first_ten_rows
                                       (pandas := reference)
                                       example_world queens "BOROUGH"
                                       queens_sheet Q)) _) G)).
Defined.

Lemma fully_missing_rows_witness :
  process_sales_file (pandas := reference) example_world bronx initial
  = (mkState [MsgProcessing "2019_bronx.xlsx"; MsgFound 2] [],
     Ok (Some bronx_table))
  /\ exists i df,
       load_and_coerce (pandas := reference) example_world bronx i = Ok df
       /\ length (rows df) = 3
       /\ rows bronx_table = filter has_value (rows df).
Proof.
  pose proof (bronx_run _ _ _
              : process_sales_file (pandas := reference) _ _ _ = _) as H.
  split; [exact H |].
  destruct (fully_missing_rows_are_dropped (pandas := reference)
              _ _ _ _ _ H) as (i & df & Hf & Hl & _ & Hr & _).
  exists i, df. split; [exact Hl |]. split; [| exact Hr].
  rewrite (bronx_header reference) in Hf. injection Hf as <-.
  vm_compute in Hl. injection Hl as <-. reflexivity.
Defined.


Lemma header_failure_witness :
  find_header_row (pandas := reference) example_world queens "BOROUGH"
  = Raise (header_not_found "BOROUGH" queens)
  /\ process_sales_file (pandas := reference) example_world queens initial
     = (mkState
          [MsgProcessing "2019_queens.xlsx";
           MsgCouldNotProcess queens
             "Header keyword 'BOROUGH' not found in the first 10 rows of /repo/data/raw/2019_queens.xlsx"]
          [],
        Ok None).
Proof.
  assert (G : find_header_row (pandas := reference) example_world queens
                "BOROUGH" = Raise (header_not_found "BOROUGH" queens))
    by reflexivity.
  split; [exact G |].
  exact (proj1 (header_failure_skips_the_file (pandas := reference)
                  example_world queens _ G) initial).
Defined.






(* ===================================================================== *)
(** ** The further facts at concrete inputs *)
(* ===================================================================== *)

Lemma main_without_spreadsheets_witness :
  makedirs world_without_spreadsheets
           (processed_data_path world_without_spreadsheets) = None
  /\ listdir world_without_spreadsheets
             (raw_data_path world_without_spreadsheets)
     = Ok ["notes.txt"; "~$2019_bronx.xlsx"]
  /\ (forall name, In name ["notes.txt"; "~$2019_bronx.xlsx"] ->
                   Py.endswith name ".xlsx" = false
                   \/ Py.startswith name "~" = true)
  /\ main (pandas := reference) world_without_spreadsheets initial
     = (mkState [MsgNoExcelFiles "/repo/data/raw"] [], Ok tt).
Proof.
  assert (H1 : makedirs world_without_spreadsheets
                 (processed_data_path world_without_spreadsheets) = None)
    by reflexivity.
  assert (H2 : listdir world_without_spreadsheets
                 (raw_data_path world_without_spreadsheets)
               = Ok ["notes.txt"; "~$2019_bronx.xlsx"]) by reflexivity.
  assert (H3 : forall name, In name ["notes.txt"; "~$2019_bronx.xlsx"] ->
                 Py.endswith name ".xlsx" = false
                 \/ Py.startswith name "~" = true).
  { intros name [<- | [<- | []]]; [left | right]; reflexivity. }
  split; [exact H1 |]. split; [exact H2 |]. split; [exact H3 |].
  exact (proj1 (main_without_spreadsheets (pandas := reference)
                  world_without_spreadsheets initial _ H1 H2 H3)).
Defined.

Lemma converted_field_named_twice_witness :
  find_header_row (pandas := reference) world_with_two_price_columns
                  staten_island "BOROUGH" = Ok 0
  /\ read_excel (pandas := reference) world_with_two_price_columns
                staten_island 0 = Ok staten_island_source
  /\ (exists c, In c numeric_cols
                /\ 2 <= length (positions c (map canonical_name
                                                 (columns staten_island_source))))
  /\ snd (process_sales_file (pandas := reference)
            world_with_two_price_columns staten_island initial)
     = Raise (TypeError "arg must be a list, tuple, 1-d array, or Series").
Proof.
  assert (H1 : find_header_row (pandas := reference)
                 world_with_two_price_columns staten_island "BOROUGH" = Ok 0)
    by reflexivity.
  assert (H2 : read_excel (pandas := reference) world_with_two_price_columns
                 staten_island 0 = Ok staten_island_source) by reflexivity.
  assert (H3 : exists c, In c numeric_cols
                 /\ 2 <= length (positions c (map canonical_name
                                                  (columns staten_island_source)))).
  { exists "sale_price". split; [now left | vm_compute; lia]. }
  split; [exact H1 |]. split; [exact H2 |]. split; [exact H3 |].
  exact (proj1 (proj2 (a_converted_field_named_twice_raises
                         (pandas := reference) world_with_two_price_columns
                         staten_island 0 staten_island_source H1 H2))
               H3 initial).
Defined.


Lemma combined_rows_witness :
  written (fst (main (pandas := reference) example_world initial))
  = written initial ++ [(example_output_file, bronx_written)]
  /\ length (rows bronx_written) = 2
  /\ map fst (rows bronx_written) = seq 0 (length (rows bronx_written)).
Proof.
  assert (H : written (fst (main (pandas := reference) example_world initial))
              = written initial ++ [(example_output_file, bronx_written)]).
  { pose proof (example_main_run _ _ _
                : main (pandas := reference) _ _ = _) as R.
    now rewrite R. }
  split; [exact H |]. split; [reflexivity |].
  destruct (combined_dataset_has_every_retained_row (pandas := reference)
              _ _ _ _ H) as (names & all_dfs & _ & _ & _ & I).
  exact I.
Defined.

Lemma fetched_files_witness :
  In (DownloadData.filename (DownloadData.assignments 2019 "bronx"))
     ["2019_bronx.xlsx"; "notes.txt"]
  /\ In bronx (excel_files example_world ["2019_bronx.xlsx"; "notes.txt"]).
Proof.
  assert (H : In (DownloadData.filename (DownloadData.assignments 2019 "bronx"))
                 ["2019_bronx.xlsx"; "notes.txt"]) by (left; reflexivity).
  split; [exact H |].
  exact (proj2 (proj2 (fetched_files_are_handed_to_the_processor
                         example_world _ 2019 "bronx" H))).
Defined.


Lemma printed_total_witness :
  written (fst (main (pandas := reference) example_world initial))
  = written initial ++ [(example_output_file, bronx_written)]
  /\ exists log,
       stdout (fst (main (pandas := reference) example_world initial))
       = stdout initial ++ log
         ++ [ MsgCombining; MsgTotalRows 2; MsgSaving example_output_file;
              MsgComplete; MsgNextSteps ]
       /\ list_sum (found_counts log) = 2.
Proof.
  assert (H : written (fst (main (pandas := reference) example_world initial))
              = written initial ++ [(example_output_file, bronx_written)]).
  { pose proof (example_main_run _ _ _
                : main (pandas := reference) _ _ = _) as R.
    now rewrite R. }
  split; [exact H |].
  destruct (the_printed_total_is_the_sum_of_the_printed_counts
              (pandas := reference) _ _ _ _ H)
    as (names & log & _ & Hout & _ & Hsum).
  exists log. split; [exact Hout | exact Hsum].
Defined.

End ProcessSalesData.
